(** * cartesian_circle.py: waypoints of a closed Cartesian circle, and the
      planning sequence around them

    The development embeds the two functions of [cartesian_circle.py]:

    - [_build_waypoints], three times: over pose values with real
      coordinates (which exception, how many waypoints, which expression
      each coordinate is); over a store of ROS message objects (who aliases
      whom, what [copy.deepcopy] allocates, what the attribute assignments
      overwrite), related to the first by [_build_waypoints_obj_refines];
      and over binary64 numbers, [_build_waypoints_f64] (what the
      coordinates are once every operation rounds).
    - [plan_cartesian_circle], as a program in a state-and-error monad over
      the state of the [MoveGroupCommander] it is handed, with every call on
      that object recorded in a log.

    Conventions.
    - In the first two embeddings a Python [float] is a real number ([R]),
      [math.pi] is [PI], [math.cos] and [math.sin] are [cos] and [sin]: a
      coordinate is then the expression the code writes for it. What is
      stated there is stated of these expressions; equalities that hold of
      real numbers only, and not of the rounded results, are left to the
      third embedding, where a [float] is a binary64 number.
    - A Python [int] is an integer ([Z]).
    - A Python [str] is a [string], one [ascii] per character; indexing a
      [str] gives a [str] of length one.
    - A raised exception is a value [Err e] of [result]. *)

From Stdlib Require Import Floats QArith Qabs.
From Stdlib Require Import Reals Lra ZArith Lia String Ascii List.
From stdpp Require Import base list strings gmap.
Import ListNotations.

(** ** Exceptions and results *)

Inductive PyError : Type :=
| IndexError
| KeyError
| ZeroDivisionError
| OverflowError
| ValueError
| AttributeError
| MoveItCommanderException (msg : string).

Inductive result (A : Type) : Type :=
| Ok (a : A)
| Err (e : PyError).
Arguments Ok {A} a.
Arguments Err {A} e.

Definition bind {A B : Type} (m : result A) (k : A -> result B) : result B :=
  match m with
  | Ok a => k a
  | Err e => Err e
  end.

Declare Scope py_scope.
Delimit Scope py_scope with py.
Notation "x <- m ;; k" := (bind m (fun x => k))
  (at level 100, m at next level, right associativity) : py_scope.

(** [ValueError] is Python's invalid-argument exception: the right type, an
    unacceptable value. *)
Definition invalid_argument_error (e : PyError) : Prop := e = ValueError.

(** ** geometry_msgs *)

Module Point.
Record t : Type := mk { x : R; y : R; z : R }.
End Point.

Module Quaternion.
Record t : Type := mk { x : R; y : R; z : R; w : R }.
End Quaternion.

Record Pose : Type := mkPose
  { position : Point.t;
    orientation : Quaternion.t }.

(** ** The Python operations the code uses *)

(** [s[i]] on a [str], for [i >= 0]. *)
Definition str_getitem (s : string) (i : nat) : result string :=
  match String.get i s with
  | Some c => Ok (String c EmptyString)
  | None => Err IndexError
  end.

(** [d[k]] on a [dict]. *)
Definition dict_getitem (d : gmap string nat) (k : string) : result nat :=
  match d !! k with
  | Some v => Ok v
  | None => Err KeyError
  end.

(** [l[i]] and [l[i] = v] on a [list], for [i >= 0]. *)
Definition list_getitem {A : Type} (l : list A) (i : nat) : result A :=
  match l !! i with
  | Some v => Ok v
  | None => Err IndexError
  end.

Definition list_setitem {A : Type} (l : list A) (i : nat) (v : A)
  : result (list A) :=
  if (i <? length l)%nat then Ok (<[i := v]> l) else Err IndexError.

(** [x / d] for a float [x] and an int [d]. *)
Definition truediv (x : R) (d : Z) : result R :=
  if (d =? 0)%Z then Err ZeroDivisionError else Ok (x / IZR d)%R.

(** [range(n)]. *)
Definition range (n : Z) : list Z := map Z.of_nat (seq 0 (Z.to_nat n)).

(** [for i in l: s = body(i, s)], stopping at the first exception. *)
Fixpoint for_in {S : Type} (l : list Z) (body : Z -> S -> result S) (s : S)
  : result S :=
  match l with
  | [] => Ok s
  | i :: l' => (s' <- body i s ;; for_in l' body s')%py
  end.

(** [cx, cy, cz = l]. *)
Definition unpack3 {A : Type} (l : list A) : result (A * A * A) :=
  match l with
  | [cx; cy; cz] => Ok (cx, cy, cz)
  | _ => Err ValueError
  end.

(** ** [_build_waypoints] over pose values *)

Definition axis : gmap string nat :=
  <["x" := 0%nat]> (<["y" := 1%nat]> (<["z" := 2%nat]> ∅)).

(** Lines 31-32: the start position, as a list, shifted back along [a]. *)
Definition shift_centre (centre : list R) (radius : R) (a : string)
  : result (R * R * R) :=
  (ia <- dict_getitem axis a ;;
   old <- list_getitem centre ia ;;
   centre <- list_setitem centre ia (old - radius)%R ;;
   unpack3 centre)%py.

(** Lines 28-32: the circle centre. *)
Definition centre_of (start_pose : Pose) (radius : R) (a : string)
  : result (R * R * R) :=
  let centre := [Point.x (position start_pose);
                 Point.y (position start_pose);
                 Point.z (position start_pose)] in
  shift_centre centre radius a.

(** Lines 39-41: the offset from the centre. *)
Definition delta_of (radius : R) (a b : string) (theta : R) : result (list R) :=
  (let delta := [0; 0; 0]%R in
   ia <- dict_getitem axis a ;;
   delta <- list_setitem delta ia (radius * cos theta)%R ;;
   ib <- dict_getitem axis b ;;
   delta <- list_setitem delta ib (radius * sin theta)%R ;;
   Ok delta)%py.

(** Lines 39-45: the position written into the copy [w]. *)
Definition waypoint_position (radius : R) (a b : string) (cx cy cz theta : R)
  : result Point.t :=
  (delta <- delta_of radius a b theta ;;
   d0 <- list_getitem delta 0 ;;
   d1 <- list_getitem delta 1 ;;
   d2 <- list_getitem delta 2 ;;
   Ok (Point.mk (cx + d0) (cy + d1) (cz + d2)))%py.

(** Lines 36-46: one turn of the loop. *)
Definition loop_body (start_pose : Pose) (radius : R) (n_points : Z)
    (a b : string) (cx cy cz : R) (i : Z) (waypoints : list Pose)
  : result (list Pose) :=
  (theta <- truediv (2 * PI * IZR i)%R n_points ;;
   let w := start_pose in
   pos <- waypoint_position radius a b cx cy cz theta ;;
   let w := mkPose pos (orientation w) in
   Ok (waypoints ++ [w]))%py.

Definition _build_waypoints (start_pose : Pose) (radius : R) (n_points : Z)
    (plane : string) : result (list Pose) :=
  (a <- str_getitem plane 0 ;;
   b <- str_getitem plane 1 ;;
   c <- centre_of start_pose radius a ;;
   let '(cx, cy, cz) := c in
   for_in (range (n_points + 1))
          (loop_body start_pose radius n_points a b cx cy cz) [])%py.

(** The two axis indices a plane selects: [axis[plane[0]]] and
    [axis[plane[1]]], as lines 25, 31 and 41 look them up. *)
Definition plane_axes (plane : string) : result (nat * nat) :=
  (a <- str_getitem plane 0 ;;
   b <- str_getitem plane 1 ;;
   ia <- dict_getitem axis a ;;
   ib <- dict_getitem axis b ;;
   Ok (ia, ib))%py.

(** The planes the docstring of [plan_cartesian_circle] lists. *)
Definition valid_plane (plane : string) : Prop :=
  plane = "xy"%string \/ plane = "yz"%string \/ plane = "xz"%string.

(** The characters that are keys of [axis]. *)
Definition is_axis (c : ascii) : bool :=
  (c =? "x")%char || (c =? "y")%char || (c =? "z")%char.

(** Coordinate [k] of a point, [k] an index of [axis]. *)
Definition coord (p : Point.t) (k : nat) : R :=
  match k with
  | 0%nat => Point.x p
  | 1%nat => Point.y p
  | _ => Point.z p
  end.

(** The index [axis] gives to the axis a plane leaves out. *)
Definition third_axis (ia ib : nat) : nat := (3 - ia - ib)%nat.

(** The angle of sample [i]. *)
Definition theta_of (n_points i : Z) : R := (2 * PI * IZR i / IZR n_points)%R.

(** Closed forms of the centre and of a waypoint's position, by axis
    indices. *)
Definition centre_at (p : Point.t) (radius : R) (ia : nat) : R * R * R :=
  let c := <[ia := (coord p ia - radius)%R]> [Point.x p; Point.y p; Point.z p] in
  (nth 0 c 0%R, nth 1 c 0%R, nth 2 c 0%R).

Definition position_at (radius : R) (ia ib : nat) (cx cy cz theta : R)
  : Point.t :=
  let d := <[ib := (radius * sin theta)%R]>
             (<[ia := (radius * cos theta)%R]> [0; 0; 0]%R) in
  Point.mk (cx + nth 0 d 0%R) (cy + nth 1 d 0%R) (cz + nth 2 d 0%R).

Definition waypoint_at (start_pose : Pose) (radius : R) (n_points : Z)
    (ia ib : nat) (i : Z) : Pose :=
  let '(cx, cy, cz) := centre_at (position start_pose) radius ia in
  mkPose (position_at radius ia ib cx cy cz (theta_of n_points i))
         (orientation start_pose).

(** ** The object store

    [geometry_msgs] messages are mutable Python objects: a [Pose] holds
    references to a [Point] and to a [Quaternion]. The store is the list of
    all objects allocated so far; a reference is an index into it, and a new
    object goes to the end. *)

Definition loc : Type := nat.

Inductive object : Type :=
| PointObject (x y z : R)
| QuaternionObject (x y z w : R)
| PoseObject (position orientation : loc).

Definition store : Type := list object.

(** A computation on the store that may raise; the store survives an
    exception. *)
Definition Obj (A : Type) : Type := store -> result A * store.

Definition ret_obj {A : Type} (a : A) : Obj A := fun h => (Ok a, h).

Definition bind_obj {A B : Type} (m : Obj A) (k : A -> Obj B) : Obj B :=
  fun h =>
    match m h with
    | (Ok a, h') => k a h'
    | (Err e, h') => (Err e, h')
    end.

Definition lift {A : Type} (m : result A) : Obj A := fun h => (m, h).

Declare Scope obj_scope.
Delimit Scope obj_scope with obj.
Notation "x <- m ;; k" := (bind_obj m (fun x => k))
  (at level 100, m at next level, right associativity) : obj_scope.
Notation "m ;;; k" := (bind_obj m (fun _ => k))
  (at level 100, right associativity) : obj_scope.

(** [o.position]. *)
Definition getattr_position (o : loc) : Obj loc :=
  fun h =>
    match h !! o with
    | Some (PoseObject p _) => (Ok p, h)
    | _ => (Err AttributeError, h)
    end.

(** [o.x], [o.y], [o.z]. *)
Definition getattr_x (o : loc) : Obj R :=
  fun h =>
    match h !! o with
    | Some (PointObject x _ _) => (Ok x, h)
    | Some (QuaternionObject x _ _ _) => (Ok x, h)
    | _ => (Err AttributeError, h)
    end.

Definition getattr_y (o : loc) : Obj R :=
  fun h =>
    match h !! o with
    | Some (PointObject _ y _) => (Ok y, h)
    | Some (QuaternionObject _ y _ _) => (Ok y, h)
    | _ => (Err AttributeError, h)
    end.

Definition getattr_z (o : loc) : Obj R :=
  fun h =>
    match h !! o with
    | Some (PointObject _ _ z) => (Ok z, h)
    | Some (QuaternionObject _ _ z _) => (Ok z, h)
    | _ => (Err AttributeError, h)
    end.

(** [o.x = v], [o.y = v], [o.z = v]: the object is overwritten in place. *)
Definition setattr_x (o : loc) (v : R) : Obj unit :=
  fun h =>
    match h !! o with
    | Some (PointObject _ y z) => (Ok tt, <[o := PointObject v y z]> h)
    | Some (QuaternionObject _ y z w) =>
        (Ok tt, <[o := QuaternionObject v y z w]> h)
    | _ => (Err AttributeError, h)
    end.

Definition setattr_y (o : loc) (v : R) : Obj unit :=
  fun h =>
    match h !! o with
    | Some (PointObject x _ z) => (Ok tt, <[o := PointObject x v z]> h)
    | Some (QuaternionObject x _ z w) =>
        (Ok tt, <[o := QuaternionObject x v z w]> h)
    | _ => (Err AttributeError, h)
    end.

Definition setattr_z (o : loc) (v : R) : Obj unit :=
  fun h =>
    match h !! o with
    | Some (PointObject x y _) => (Ok tt, <[o := PointObject x y v]> h)
    | Some (QuaternionObject x y _ w) =>
        (Ok tt, <[o := QuaternionObject x y v w]> h)
    | _ => (Err AttributeError, h)
    end.

(** [copy.deepcopy(o)] for a [Pose]: a new [Point], a new [Quaternion] and a
    new [Pose] that refers to them. A reference to anything that is not a
    [Pose] over a [Point] and a [Quaternion] is outside what is modelled. *)
Definition deepcopy (o : loc) : Obj loc :=
  fun h =>
    match h !! o with
    | Some (PoseObject p q) =>
        match h !! p, h !! q with
        | Some (PointObject x y z), Some (QuaternionObject qx qy qz qw) =>
            let n := length h in
            (Ok (n + 2)%nat,
             h ++ [PointObject x y z; QuaternionObject qx qy qz qw;
                   PoseObject n (n + 1)%nat])
        | _, _ => (Err AttributeError, h)
        end
    | _ => (Err AttributeError, h)
    end.

Fixpoint for_in_obj {S : Type} (l : list Z) (body : Z -> S -> Obj S) (s : S)
  : Obj S :=
  match l with
  | [] => ret_obj s
  | i :: l' => (s' <- body i s ;; for_in_obj l' body s')%obj
  end.

(** ** [_build_waypoints] over the object store

    [start_pose] and the waypoints are references; floats are immutable
    values; the lists [centre] and [delta] never leave the call and stay
    values; [waypoints] is the list of the references appended. *)

(** Lines 28-32. *)
Definition centre_of_obj (start_pose : loc) (radius : R) (a : string)
  : Obj (R * R * R) :=
  (p <- getattr_position start_pose ;; x <- getattr_x p ;;
   p <- getattr_position start_pose ;; y <- getattr_y p ;;
   p <- getattr_position start_pose ;; z <- getattr_z p ;;
   lift (shift_centre [x; y; z] radius a))%obj.

(** Lines 36-46. *)
Definition loop_body_obj (start_pose : loc) (radius : R) (n_points : Z)
    (a b : string) (cx cy cz : R) (i : Z) (waypoints : list loc)
  : Obj (list loc) :=
  (theta <- lift (truediv (2 * PI * IZR i)%R n_points) ;;
   w <- deepcopy start_pose ;;
   delta <- lift (delta_of radius a b theta) ;;
   d0 <- lift (list_getitem delta 0) ;;
   p <- getattr_position w ;; setattr_x p (cx + d0)%R ;;;
   d1 <- lift (list_getitem delta 1) ;;
   p <- getattr_position w ;; setattr_y p (cy + d1)%R ;;;
   d2 <- lift (list_getitem delta 2) ;;
   p <- getattr_position w ;; setattr_z p (cz + d2)%R ;;;
   ret_obj (waypoints ++ [w]))%obj.

Definition _build_waypoints_obj (start_pose : loc) (radius : R)
    (n_points : Z) (plane : string) : Obj (list loc) :=
  (a <- lift (str_getitem plane 0) ;;
   b <- lift (str_getitem plane 1) ;;
   c <- centre_of_obj start_pose radius a ;;
   let '(cx, cy, cz) := c in
   for_in_obj (range (n_points + 1))
              (loop_body_obj start_pose radius n_points a b cx cy cz) [])%obj.

(** What a reference to a [Pose] stands for in a store. *)
Definition pose_at (h : store) (o : loc) (p : Pose) : Prop :=
  exists lp lq,
    h !! o = Some (PoseObject lp lq) /\
    h !! lp = Some (PointObject (Point.x (position p)) (Point.y (position p))
                                (Point.z (position p))) /\
    h !! lq = Some (QuaternionObject
                      (Quaternion.x (orientation p)) (Quaternion.y (orientation p))
                      (Quaternion.z (orientation p)) (Quaternion.w (orientation p))).

(** The objects a [Pose] reference reaches: itself, its position, its
    orientation. *)
Definition reach (h : store) (o : loc) : list loc :=
  match h !! o with
  | Some (PoseObject p q) => [o; p; q]
  | _ => [o]
  end.

(** The three objects one copy adds at the end of a store of size [m], and
    the stores and references a run of copies produces. *)
Definition cells (m : nat) (w : Pose) : list object :=
  [PointObject (Point.x (position w)) (Point.y (position w))
               (Point.z (position w));
   QuaternionObject (Quaternion.x (orientation w)) (Quaternion.y (orientation w))
                    (Quaternion.z (orientation w)) (Quaternion.w (orientation w));
   PoseObject m (m + 1)%nat].

Fixpoint alloc (m : nat) (ws : list Pose) : list object :=
  match ws with
  | [] => []
  | w :: ws' => cells m w ++ alloc (m + 3)%nat ws'
  end.

Fixpoint refs (m : nat) (ws : list Pose) : list loc :=
  match ws with
  | [] => []
  | _ :: ws' => (m + 2)%nat :: refs (m + 3)%nat ws'
  end.

(** ** The move group

    [plan_cartesian_circle] is handed a [MoveGroupCommander] and calls four of
    its methods. What they do is MoveIt's business: here each is a function
    of the move group's state that returns a value or raises, and changes the
    state. [RobotTrajectory] is opaque. *)

Record Header : Type := mkHeader
  { seq : Z;
    stamp : Z * Z;
    frame_id : string }.

Record PoseStamped : Type := mkPoseStamped
  { header : Header;
    pose : Pose }.

Module MoveGroupCommander.
Record t (St RobotTrajectory : Type) : Type := mk
  { set_max_velocity_scaling_factor : R -> St -> result unit * St;
    get_current_pose : St -> result PoseStamped * St;
    compute_cartesian_path :
      list Pose -> R -> R -> bool -> St -> result (RobotTrajectory * R) * St;
    execute : RobotTrajectory -> bool -> St -> result unit * St }.
Arguments mk {St RobotTrajectory}.
Arguments set_max_velocity_scaling_factor {St RobotTrajectory}.
Arguments get_current_pose {St RobotTrajectory}.
Arguments compute_cartesian_path {St RobotTrajectory}.
Arguments execute {St RobotTrajectory}.
End MoveGroupCommander.

(** A call made on the move group, with its arguments. *)
Inductive call (RobotTrajectory : Type) : Type :=
| SetMaxVelocityScalingFactor (value : R)
| GetCurrentPose
| ComputeCartesianPath (waypoints : list Pose) (eef_step jump_threshold : R)
    (avoid_collisions : bool)
| Execute (traj : RobotTrajectory) (wait : bool).
Arguments SetMaxVelocityScalingFactor {RobotTrajectory}.
Arguments GetCurrentPose {RobotTrajectory}.
Arguments ComputeCartesianPath {RobotTrajectory}.
Arguments Execute {RobotTrajectory}.

Definition is_execute {RobotTrajectory : Type} (c : call RobotTrajectory)
  : bool :=
  match c with
  | Execute _ _ => true
  | _ => false
  end.

(** [x >= y] on floats. *)
Definition float_ge (x y : R) : bool :=
  if Rge_dec x y then true else false.

Section Planner.

Context {St RobotTrajectory : Type}.

(** The world of a run: the move group's state and the calls made on it so
    far, oldest first. *)
Definition world : Type := St * list (call RobotTrajectory).

(** A computation on the world that may raise. *)
Definition Plan (A : Type) : Type := world -> result A * world.

Definition ret_plan {A : Type} (a : A) : Plan A := fun w => (Ok a, w).

Definition bind_plan {A B : Type} (m : Plan A) (k : A -> Plan B) : Plan B :=
  fun w =>
    match m w with
    | (Ok a, w') => k a w'
    | (Err e, w') => (Err e, w')
    end.

Definition lift_plan {A : Type} (m : result A) : Plan A := fun w => (m, w).

Declare Scope plan_scope.
Delimit Scope plan_scope with plan.
Notation "x <- m ;; k" := (bind_plan m (fun x => k))
  (at level 100, m at next level, right associativity) : plan_scope.
Notation "m ;;; k" := (bind_plan m (fun _ => k))
  (at level 100, right associativity) : plan_scope.

(** A method call: it is logged, then it runs on the move group's state. *)
Definition invoke {A : Type} (c : call RobotTrajectory)
    (method : St -> result A * St) : Plan A :=
  fun w =>
    let '(s, log) := w in
    let '(r, s') := method s in
    (r, (s', log ++ [c])).

Definition plan_cartesian_circle
    (move_group : MoveGroupCommander.t St RobotTrajectory)
    (radius : R) (n_points : Z) (plane : string)
    (eef_step jump_threshold velocity_scale : R) (execute : bool)
    (completeness_threshold : R) : Plan (RobotTrajectory * R) :=
  (invoke (SetMaxVelocityScalingFactor velocity_scale)
     (MoveGroupCommander.set_max_velocity_scaling_factor move_group
        velocity_scale) ;;;
   current <- invoke GetCurrentPose
                (MoveGroupCommander.get_current_pose move_group) ;;
   let start_pose := pose current in
   waypoints <- lift_plan (_build_waypoints start_pose radius n_points plane) ;;
   planned <- invoke
                (ComputeCartesianPath waypoints eef_step jump_threshold true)
                (MoveGroupCommander.compute_cartesian_path move_group
                   waypoints eef_step jump_threshold true) ;;
   let '(traj, fraction) := planned in
   (if execute && float_ge fraction completeness_threshold
    then invoke (Execute traj true)
           (MoveGroupCommander.execute move_group traj true)
    else ret_plan tt) ;;;
   ret_plan (traj, fraction))%plan.

End Planner.

(** The calls to [execute] in a log. *)
Definition executions {RobotTrajectory : Type}
    (log : list (call RobotTrajectory)) : list (call RobotTrajectory) :=
  List.filter is_execute log.

(** A move group that never fails, plans the whole path to a fixed fraction
    and counts the calls to [execute] in its state. *)
Definition stub (current : PoseStamped) (fraction : R)
  : MoveGroupCommander.t nat (list Pose) :=
  MoveGroupCommander.mk
    (fun _ s => (Ok tt, s))
    (fun s => (Ok current, s))
    (fun waypoints _ _ _ s => (Ok (waypoints, fraction), s))
    (fun _ _ s => (Ok tt, S s)).

(** The centre, a triple in the code, as a point. *)
Definition point_of (c : R * R * R) : Point.t :=
  let '(cx, cy, cz) := c in Point.mk cx cy cz.

(** The centre the call computes for a plane: lines 25 to 32. *)
Definition circle_centre (start_pose : Pose) (radius : R) (plane : string)
  : result (R * R * R) :=
  (a <- str_getitem plane 0 ;;
   b <- str_getitem plane 1 ;;
   centre_of start_pose radius a)%py.

(** The references of a run of copies, with the objects each reaches. *)
Fixpoint triples (m : nat) (ws : list Pose) : list loc :=
  match ws with
  | [] => []
  | _ :: ws' => [(m + 2)%nat; m; (m + 1)%nat] ++ triples (m + 3)%nat ws'
  end.

(** A move group without state whose four methods give fixed results, each
    a value or an exception. *)
Definition scripted (on_set : result unit) (on_get : result PoseStamped)
    (on_path : result (list Pose * R)) (on_execute : result unit)
  : MoveGroupCommander.t unit (list Pose) :=
  MoveGroupCommander.mk
    (fun _ s => (on_set, s))
    (fun s => (on_get, s))
    (fun _ _ _ _ s => (on_path, s))
    (fun _ _ s => (on_execute, s)).

(** ** [_build_waypoints] in binary64

    The same function once more, with a Python [float] as what it is at run
    time: an IEEE 754 binary64 number, every operation rounded to nearest,
    ties to even. [math.cos] and [math.sin] belong to the C library and are
    parameters. *)

Module Point64.
Record t : Type := mk { x : float; y : float; z : float }.
End Point64.

Module Quaternion64.
Record t : Type := mk { x : float; y : float; z : float; w : float }.
End Quaternion64.

Record Pose64 : Type := mkPose64
  { position64 : Point64.t;
    orientation64 : Quaternion64.t }.

(** [math.pi]. *)
Definition math_pi : float := 0x1.921fb54442d18p+1%float.

(** An [int] where a [float] is needed: the nearest binary64 number, ties
    to even; OverflowError when that is no finite number. *)
Definition float_of_int (z : Z) : result float :=
  match binary_normalize prec emax z 0 false with
  | S754_infinity _ => Err OverflowError
  | f => Ok (SF2Prim f)
  end.

Section Libm.

Variables math_cos math_sin : float -> float.

(** Line 36: [2.0 * math.pi * i / n_points]. *)
Definition theta64 (n_points i : Z) : result float :=
  (fi <- float_of_int i ;;
   let t := (0x1p+1 * math_pi * fi)%float in
   fn <- float_of_int n_points ;;
   if (fn =? 0)%float then Err ZeroDivisionError else Ok (t / fn)%float)%py.

(** Lines 31-32. *)
Definition shift_centre64 (centre : list float) (radius : float) (a : string)
  : result (float * float * float) :=
  (ia <- dict_getitem axis a ;;
   old <- list_getitem centre ia ;;
   centre <- list_setitem centre ia (old - radius)%float ;;
   unpack3 centre)%py.

(** Lines 28-32. *)
Definition centre_of64 (start_pose : Pose64) (radius : float) (a : string)
  : result (float * float * float) :=
  let centre := [Point64.x (position64 start_pose);
                 Point64.y (position64 start_pose);
                 Point64.z (position64 start_pose)] in
  shift_centre64 centre radius a.

(** Lines 39-41. *)
Definition delta_of64 (radius : float) (a b : string) (theta : float)
  : result (list float) :=
  (let delta := [0x0p+0; 0x0p+0; 0x0p+0]%float in
   ia <- dict_getitem axis a ;;
   delta <- list_setitem delta ia (radius * math_cos theta)%float ;;
   ib <- dict_getitem axis b ;;
   delta <- list_setitem delta ib (radius * math_sin theta)%float ;;
   Ok delta)%py.

(** Lines 39-45. *)
Definition waypoint_position64 (radius : float) (a b : string)
    (cx cy cz theta : float) : result Point64.t :=
  (delta <- delta_of64 radius a b theta ;;
   d0 <- list_getitem delta 0 ;;
   d1 <- list_getitem delta 1 ;;
   d2 <- list_getitem delta 2 ;;
   Ok (Point64.mk (cx + d0) (cy + d1) (cz + d2)))%py.

(** Lines 36-46. *)
Definition loop_body64 (start_pose : Pose64) (radius : float) (n_points : Z)
    (a b : string) (cx cy cz : float) (i : Z) (waypoints : list Pose64)
  : result (list Pose64) :=
  (theta <- theta64 n_points i ;;
   let w := start_pose in
   pos <- waypoint_position64 radius a b cx cy cz theta ;;
   let w := mkPose64 pos (orientation64 w) in
   Ok (waypoints ++ [w]))%py.

Definition _build_waypoints_f64 (start_pose : Pose64) (radius : float)
    (n_points : Z) (plane : string) : result (list Pose64) :=
  (a <- str_getitem plane 0 ;;
   b <- str_getitem plane 1 ;;
   c <- centre_of64 start_pose radius a ;;
   let '(cx, cy, cz) := c in
   for_in (range (n_points + 1))
          (loop_body64 start_pose radius n_points a b cx cy cz) [])%py.

(** The centre the call computes for a plane: lines 25 to 32. *)
Definition circle_centre64 (start_pose : Pose64) (radius : float)
    (plane : string) : result (float * float * float) :=
  (a <- str_getitem plane 0 ;;
   b <- str_getitem plane 1 ;;
   centre_of64 start_pose radius a)%py.

End Libm.

(** What the C library's [cos] and [sin] return, as [math.cos] and
    [math.sin] hand it on, at the five angles the loop reaches for
    [n_points = 4]: [0], and the binary64 numbers nearest to pi/2, pi, 3pi/2
    and 2pi. Each value is the binary64 number nearest to the cosine or sine
    of the argument. No other argument is tabulated. *)
Definition cos_table (x : float) : float :=
  if (x =? 0x0p+0)%float then 0x1p+0%float
  else if (x =? 0x1.921fb54442d18p+0)%float then 0x1.1a62633145c07p-54%float
  else if (x =? 0x1.921fb54442d18p+1)%float then (-0x1p+0)%float
  else if (x =? 0x1.2d97c7f3321d2p+2)%float then (-0x1.a79394c9e8a0ap-53)%float
  else if (x =? 0x1.921fb54442d18p+2)%float then 0x1p+0%float
  else nan.

Definition sin_table (x : float) : float :=
  if (x =? 0x0p+0)%float then 0x0p+0%float
  else if (x =? 0x1.921fb54442d18p+0)%float then 0x1p+0%float
  else if (x =? 0x1.921fb54442d18p+1)%float then 0x1.1a62633145c07p-53%float
  else if (x =? 0x1.2d97c7f3321d2p+2)%float then (-0x1p+0)%float
  else if (x =? 0x1.921fb54442d18p+2)%float then (-0x1.1a62633145c07p-52)%float
  else nan.

(** The rational number a finite binary64 number is. *)
Definition exact (f : float) : Q :=
  match Prim2SF f with
  | S754_finite s m e =>
      inject_Z (if s then Z.neg m else Z.pos m) * Qpower 2 e
  | _ => 0
  end.


(** The start pose, the radius and the orientation of the four-point
    example: position (1, 0, 0), radius the binary64 number nearest to 0.1. *)
Definition example_pose64 (q : Quaternion64.t) : Pose64 :=
  mkPose64 (Point64.mk 0x1p+0 0x0p+0 0x0p+0) q.

Definition example_radius64 : float := 0x1.999999999999ap-4%float.

(** ** Lemmas on the value level *)

Lemma axis_x : dict_getitem axis "x" = Ok 0%nat.
Proof. reflexivity. Qed.

Lemma axis_y : dict_getitem axis "y" = Ok 1%nat.
Proof. reflexivity. Qed.

Lemma axis_z : dict_getitem axis "z" = Ok 2%nat.
Proof. reflexivity. Qed.

Lemma axis_missing (k : string) :
  k <> "x"%string -> k <> "y"%string -> k <> "z"%string ->
  dict_getitem axis k = Err KeyError.
Proof.
  intros Hx Hy Hz. unfold dict_getitem, axis.
  rewrite !lookup_insert_ne by congruence.
  rewrite lookup_empty. reflexivity.
Qed.

Lemma axis_cases (k : string) :
  (k = "x"%string /\ dict_getitem axis k = Ok 0%nat) \/
  (k = "y"%string /\ dict_getitem axis k = Ok 1%nat) \/
  (k = "z"%string /\ dict_getitem axis k = Ok 2%nat) \/
  (k <> "x"%string /\ k <> "y"%string /\ k <> "z"%string /\
   dict_getitem axis k = Err KeyError).
Proof.
  destruct (decide (k = "x"%string)) as [->|Hx]; [left; split; reflexivity|].
  destruct (decide (k = "y"%string)) as [->|Hy];
    [right; left; split; reflexivity|].
  destruct (decide (k = "z"%string)) as [->|Hz];
    [right; right; left; split; reflexivity|].
  right; right; right. repeat split; try assumption.
  apply axis_missing; assumption.
Qed.

Lemma axis_Ok_range (k : string) (i : nat) :
  dict_getitem axis k = Ok i -> (i < 3)%nat.
Proof.
  destruct (axis_cases k) as [[_ H]|[[_ H]|[[_ H]|(_ & _ & _ & H)]]];
    rewrite H; intros E; inversion E; lia.
Qed.

Lemma axis_error (k : string) (e : PyError) :
  dict_getitem axis k = Err e -> e = KeyError.
Proof.
  destruct (axis_cases k) as [[_ H]|[[_ H]|[[_ H]|(_ & _ & _ & H)]]];
    rewrite H; intros E; inversion E; reflexivity.
Qed.

Lemma centre_of_Ok (p : Pose) (radius : R) (a : string) (ia : nat) :
  dict_getitem axis a = Ok ia ->
  centre_of p radius a = Ok (centre_at (position p) radius ia).
Proof.
  intros Ha. pose proof (axis_Ok_range _ _ Ha) as Hlt.
  unfold centre_of, shift_centre. rewrite Ha. cbn [bind].
  destruct ia as [|[|[|ia]]]; [reflexivity ..|lia].
Qed.

Lemma waypoint_position_Ok (radius : R) (a b : string) (ia ib : nat)
    (cx cy cz theta : R) :
  dict_getitem axis a = Ok ia -> dict_getitem axis b = Ok ib ->
  waypoint_position radius a b cx cy cz theta
  = Ok (position_at radius ia ib cx cy cz theta).
Proof.
  intros Ha Hb.
  pose proof (axis_Ok_range _ _ Ha) as Hlta.
  pose proof (axis_Ok_range _ _ Hb) as Hltb.
  unfold waypoint_position, delta_of. rewrite Ha. cbn [bind].
  destruct ia as [|[|[|ia]]]; [| | |lia]; cbn; rewrite Hb; cbn [bind];
    (destruct ib as [|[|[|ib]]]; [reflexivity ..|lia]).
Qed.

Lemma range_length (n : Z) : length (range n) = Z.to_nat n.
Proof. unfold range. rewrite length_map, length_seq. reflexivity. Qed.

Lemma range_lookup (n i : Z) :
  (0 <= i < n)%Z -> range n !! Z.to_nat i = Some i.
Proof.
  intros Hi. unfold range. rewrite list_lookup_fmap.
  rewrite lookup_seq_lt by lia. cbn. f_equal. lia.
Qed.

Lemma range_nonpositive (n : Z) : (n <= 0)%Z -> range n = [].
Proof.
  intros Hn. unfold range. replace (Z.to_nat n) with 0%nat by lia. reflexivity.
Qed.

Lemma for_in_append {A : Type} (f : Z -> A) (body : Z -> list A -> result (list A))
    (l : list Z) (acc : list A) :
  (forall i ws, In i l -> body i ws = Ok (ws ++ [f i])) ->
  for_in l body acc = Ok (acc ++ map f l).
Proof.
  revert acc. induction l as [|i l IH]; intros acc Hbody; cbn.
  - rewrite app_nil_r. reflexivity.
  - rewrite Hbody by (left; reflexivity). cbn [bind].
    rewrite IH by (intros; apply Hbody; right; assumption).
    rewrite <- app_assoc. reflexivity.
Qed.

Lemma loop_body_Ok (p : Pose) (radius : R) (n_points : Z) (a b : string)
    (ia ib : nat) (cx cy cz : R) (i : Z) (ws : list Pose) :
  n_points <> 0%Z ->
  dict_getitem axis a = Ok ia -> dict_getitem axis b = Ok ib ->
  loop_body p radius n_points a b cx cy cz i ws
  = Ok (ws ++ [mkPose (position_at radius ia ib cx cy cz (theta_of n_points i))
                      (orientation p)]).
Proof.
  intros Hn Ha Hb. unfold loop_body, truediv.
  destruct (Z.eqb_spec n_points 0) as [|_]; [contradiction|]. cbn [bind].
  rewrite (waypoint_position_Ok _ _ _ _ _ _ _ _ _ Ha Hb). reflexivity.
Qed.

Lemma plane_axes_Ok_inv (plane : string) (ia ib : nat) :
  plane_axes plane = Ok (ia, ib) ->
  exists a b, str_getitem plane 0 = Ok a /\ str_getitem plane 1 = Ok b /\
              dict_getitem axis a = Ok ia /\ dict_getitem axis b = Ok ib.
Proof.
  unfold plane_axes.
  destruct (str_getitem plane 0) as [a|]; [|discriminate].
  destruct (str_getitem plane 1) as [b|]; [|discriminate]. cbn [bind].
  destruct (dict_getitem axis a) as [ja|] eqn:Ha; [|discriminate].
  destruct (dict_getitem axis b) as [jb|] eqn:Hb; [|discriminate]. cbn [bind].
  intros E; inversion E; subst. exists a, b. repeat split; assumption.
Qed.

(** With two axis letters in front and a point count other than zero, the
    call returns one waypoint per index of [range(n_points + 1)]. *)
Lemma build_waypoints_Ok (p : Pose) (radius : R) (n_points : Z)
    (plane : string) (ia ib : nat) :
  plane_axes plane = Ok (ia, ib) -> n_points <> 0%Z ->
  _build_waypoints p radius n_points plane
  = Ok (map (waypoint_at p radius n_points ia ib) (range (n_points + 1))).
Proof.
  intros Hpl Hn.
  destruct (plane_axes_Ok_inv _ _ _ Hpl) as (a & b & H0 & H1 & Ha & Hb).
  unfold _build_waypoints. rewrite H0, H1. cbn [bind].
  rewrite (centre_of_Ok _ _ _ _ Ha). cbn [bind].
  unfold waypoint_at.
  destruct (centre_at (position p) radius ia) as [[cx cy] cz].
  rewrite (for_in_append
             (fun i => mkPose (position_at radius ia ib cx cy cz (theta_of n_points i))
                              (orientation p))).
  - reflexivity.
  - intros i ws _. apply loop_body_Ok; assumption.
Qed.

(** With a point count of zero the first turn of the loop divides by zero,
    whatever the second letter of the plane is. *)
Lemma build_waypoints_zero (p : Pose) (radius : R) (plane a b : string)
    (ia : nat) :
  str_getitem plane 0 = Ok a -> str_getitem plane 1 = Ok b ->
  dict_getitem axis a = Ok ia ->
  _build_waypoints p radius 0 plane = Err ZeroDivisionError.
Proof.
  intros H0 H1 Ha. unfold _build_waypoints. rewrite H0, H1. cbn [bind].
  rewrite (centre_of_Ok _ _ _ _ Ha). cbn [bind].
  destruct (centre_at (position p) radius ia) as [[cx cy] cz]. reflexivity.
Qed.

(** With a negative point count the loop is not entered. *)
Lemma build_waypoints_negative (p : Pose) (radius : R) (n_points : Z)
    (plane a b : string) (ia : nat) :
  (n_points <= -1)%Z ->
  str_getitem plane 0 = Ok a -> str_getitem plane 1 = Ok b ->
  dict_getitem axis a = Ok ia ->
  _build_waypoints p radius n_points plane = Ok [].
Proof.
  intros Hn H0 H1 Ha. unfold _build_waypoints. rewrite H0, H1. cbn [bind].
  rewrite (centre_of_Ok _ _ _ _ Ha). cbn [bind].
  destruct (centre_at (position p) radius ia) as [[cx cy] cz].
  rewrite range_nonpositive by lia. reflexivity.
Qed.

(** With a point count of at least one, a plane whose axes cannot be looked
    up makes the call raise what the lookup raises. *)
Lemma build_waypoints_Err (p : Pose) (radius : R) (n_points : Z)
    (plane : string) (e : PyError) :
  (1 <= n_points)%Z -> plane_axes plane = Err e ->
  _build_waypoints p radius n_points plane = Err e.
Proof.
  intros Hn. unfold plane_axes, _build_waypoints.
  destruct (str_getitem plane 0) as [a|]; [|cbn [bind]; congruence].
  destruct (str_getitem plane 1) as [b|]; [|cbn [bind]; congruence]. cbn [bind].
  destruct (dict_getitem axis a) as [ja|e'] eqn:Ha.
  - rewrite (centre_of_Ok _ _ _ _ Ha). cbn [bind].
    destruct (centre_at (position p) radius ja) as [[cx cy] cz].
    destruct (dict_getitem axis b) as [jb|e''] eqn:Hb; [discriminate|].
    cbn [bind]. intros E.
    unfold range. replace (Z.to_nat (n_points + 1)) with (S (Z.to_nat n_points)) by lia.
    cbn [seq map for_in]. unfold loop_body at 1, truediv.
    destruct (Z.eqb_spec n_points 0) as [|_]; [lia|]. cbn [bind].
    unfold waypoint_position, delta_of. rewrite Ha. cbn [bind].
    pose proof (axis_Ok_range _ _ Ha) as Hlt.
    destruct ja as [|[|[|ja]]]; [| | |lia]; cbn; rewrite Hb; cbn [bind];
      congruence.
  - cbn [bind]. intros E. unfold centre_of, shift_centre. rewrite Ha. cbn [bind].
    congruence.
Qed.

Lemma plane_axes_error (plane : string) (e : PyError) :
  plane_axes plane = Err e ->
  (e = IndexError /\ (String.length plane < 2)%nat) \/
  (e = KeyError /\ (2 <= String.length plane)%nat).
Proof.
  unfold plane_axes, str_getitem.
  destruct plane as [|c0 [|c1 rest]]; cbn.
  - intros E; inversion E. left. split; [reflexivity|lia].
  - intros E; inversion E. left. split; [reflexivity|lia].
  - intros E. right. split; [|lia].
    destruct (dict_getitem axis (String c0 "")) as [ja|e'] eqn:Ha; cbn in E.
    + destruct (dict_getitem axis (String c1 "")) as [jb|e''] eqn:Hb; cbn in E;
        [discriminate|].
      inversion E; subst. eapply axis_error; eassumption.
    + inversion E; subst. eapply axis_error; eassumption.
Qed.

(** ** Lemmas on the object store *)

Lemma lookup_end (h l : store) (k : nat) :
  (h ++ l) !! (length h + k)%nat = l !! k.
Proof. rewrite lookup_app_r by lia. f_equal. lia. Qed.

Lemma lookup_end0 (h l : store) : (h ++ l) !! length h = l !! 0%nat.
Proof. rewrite lookup_app_r by lia. f_equal. lia. Qed.

Lemma insert_end0 (h l : store) (v : object) :
  <[length h := v]> (h ++ l) = h ++ <[0%nat := v]> l.
Proof.
  transitivity (<[(length h + 0)%nat := v]> (h ++ l)).
  - f_equal. lia.
  - apply insert_app_r.
Qed.

Lemma pose_at_app (h h2 : store) (o : loc) (p : Pose) :
  pose_at h o p -> pose_at (h ++ h2) o p.
Proof.
  intros (lp & lq & Ho & Hp & Hq). exists lp, lq.
  repeat split; apply lookup_app_l_Some; assumption.
Qed.

Lemma pose_at_cells (h : store) (w : Pose) :
  pose_at (h ++ cells (length h) w) (length h + 2)%nat w.
Proof.
  exists (length h), (length h + 1)%nat. repeat split.
  - apply (lookup_end h (cells (length h) w) 2).
  - apply (lookup_end0 h (cells (length h) w)).
  - apply (lookup_end h (cells (length h) w) 1).
Qed.

Lemma deepcopy_pose (h : store) (o : loc) (p : Pose) :
  pose_at h o p ->
  deepcopy o h = (Ok (length h + 2)%nat, h ++ cells (length h) p).
Proof.
  intros (lp & lq & Ho & Hp & Hq). unfold deepcopy.
  rewrite Ho, Hp, Hq. reflexivity.
Qed.

Lemma centre_of_obj_pose (h : store) (o : loc) (p : Pose) (radius : R)
    (a : string) :
  pose_at h o p ->
  centre_of_obj o radius a h = (centre_of p radius a, h).
Proof.
  intros (lp & lq & Ho & Hp & Hq).
  unfold centre_of_obj, bind_obj, getattr_position, getattr_x, getattr_y,
    getattr_z, lift.
  repeat (rewrite Ho; cbv beta iota; rewrite Hp; cbv beta iota).
  reflexivity.
Qed.

Lemma list_setitem_length (l l' : list R) (i : nat) (v : R) :
  list_setitem l i v = Ok l' -> length l' = length l.
Proof.
  unfold list_setitem. destruct (i <? length l)%nat; [|discriminate].
  intros E; inversion E. apply length_insert.
Qed.

Lemma delta_of_shape (radius : R) (a b : string) (theta : R) (d : list R) :
  delta_of radius a b theta = Ok d -> exists d0 d1 d2, d = [d0; d1; d2].
Proof.
  unfold delta_of.
  destruct (dict_getitem axis a) as [ia|]; [|discriminate]. cbn [bind].
  destruct (list_setitem _ ia _) as [l1|] eqn:E1; [|discriminate]. cbn [bind].
  destruct (dict_getitem axis b) as [ib|]; [|discriminate]. cbn [bind].
  destruct (list_setitem l1 ib _) as [l2|] eqn:E2; [|discriminate]. cbn [bind].
  intros E; inversion E; subst.
  apply list_setitem_length in E1, E2. rewrite E1 in E2. cbn in E2.
  destruct d as [|d0 [|d1 [|d2 [|]]]]; try discriminate.
  exists d0, d1, d2. reflexivity.
Qed.

(** One turn of the loop, on values: the angle, the offset, then the new
    pose. *)
Lemma loop_body_unfold (p : Pose) (radius : R) (n_points : Z) (a b : string)
    (cx cy cz : R) (i : Z) (ws : list Pose) :
  loop_body p radius n_points a b cx cy cz i ws =
  match truediv (2 * PI * IZR i)%R n_points with
  | Err e => Err e
  | Ok theta =>
      match delta_of radius a b theta with
      | Err e => Err e
      | Ok d =>
          Ok (ws ++ [mkPose (Point.mk (cx + nth 0 d 0) (cy + nth 1 d 0)
                                      (cz + nth 2 d 0))%R
                            (orientation p)])
      end
  end.
Proof.
  unfold loop_body, waypoint_position.
  destruct (truediv _ n_points) as [theta|]; [|reflexivity]. cbn [bind].
  destruct (delta_of radius a b theta) as [d|] eqn:Hd; [|reflexivity].
  destruct (delta_of_shape _ _ _ _ _ Hd) as (d0 & d1 & d2 & ->). reflexivity.
Qed.

(** One turn of the loop, on the store: nothing is touched before the copy;
    the copy goes to the end of the store; the three assignments overwrite
    the copy's own [Point]. *)
Lemma loop_body_obj_unfold (h : store) (o : loc) (p : Pose) (radius : R)
    (n_points : Z) (a b : string) (cx cy cz : R) (i : Z) (ls : list loc) :
  pose_at h o p ->
  loop_body_obj o radius n_points a b cx cy cz i ls h =
  match truediv (2 * PI * IZR i)%R n_points with
  | Err e => (Err e, h)
  | Ok theta =>
      match delta_of radius a b theta with
      | Err e => (Err e, h ++ cells (length h) p)
      | Ok d =>
          (Ok (ls ++ [(length h + 2)%nat]),
           h ++ cells (length h)
                  (mkPose (Point.mk (cx + nth 0 d 0) (cy + nth 1 d 0)
                                    (cz + nth 2 d 0))%R
                          (orientation p)))
      end
  end.
Proof.
  intros Hp. unfold loop_body_obj, bind_obj, lift.
  destruct (truediv _ n_points) as [theta|]; [|reflexivity].
  rewrite (deepcopy_pose _ _ _ Hp).
  destruct (delta_of radius a b theta) as [d|] eqn:Hd; [|reflexivity].
  destruct (delta_of_shape _ _ _ _ _ Hd) as (d0 & d1 & d2 & ->).
  cbn [list_getitem lookup list_lookup].
  unfold getattr_position, setattr_x, setattr_y, setattr_z, ret_obj.
  set (m := length h).
  assert (Hlen : forall c, length (h ++ cells m c) = (m + 3)%nat)
    by (intros c; rewrite length_app; reflexivity).
  assert (Hw : forall c, (h ++ cells m c) !! (m + 2)%nat
                         = Some (PoseObject m (m + 1)%nat))
    by (intros c; apply (lookup_end h (cells m c) 2)).
  assert (Hpt : forall c, (h ++ cells m c) !! m
                = Some (PointObject (Point.x (position c)) (Point.y (position c))
                                    (Point.z (position c)))).
  { intros c. apply (lookup_end0 h (cells m c)). }
  assert (Hins : forall c v,
             <[m := v]> (h ++ cells m c) = h ++ <[0%nat := v]> (cells m c)).
  { intros c v. apply insert_end0. }
  rewrite Hw, Hpt, Hins. cbn [cells insert list_insert position Point.x Point.y Point.z].
  change (h ++ [PointObject (cx + d0) (Point.y (position p)) (Point.z (position p));
                QuaternionObject (Quaternion.x (orientation p))
                  (Quaternion.y (orientation p)) (Quaternion.z (orientation p))
                  (Quaternion.w (orientation p));
                PoseObject m (m + 1)%nat])
    with (h ++ cells m (mkPose (Point.mk (cx + d0) (Point.y (position p))
                                         (Point.z (position p)))
                               (orientation p))).
  rewrite Hw, Hpt, Hins. cbn [cells insert list_insert position Point.x Point.y Point.z orientation].
  change (h ++ [PointObject (cx + d0) (cy + d1) (Point.z (position p));
                QuaternionObject (Quaternion.x (orientation p))
                  (Quaternion.y (orientation p)) (Quaternion.z (orientation p))
                  (Quaternion.w (orientation p));
                PoseObject m (m + 1)%nat])
    with (h ++ cells m (mkPose (Point.mk (cx + d0) (cy + d1)
                                         (Point.z (position p)))
                               (orientation p))).
  rewrite Hw, Hpt, Hins. reflexivity.
Qed.

Lemma cells_length (m : nat) (w : Pose) : length (cells m w) = 3%nat.
Proof. reflexivity. Qed.

(** The loop on the store follows the loop on values: the same exception, or
    one copy per new waypoint at the end of the store. *)
Lemma for_in_obj_refines (o : loc) (p : Pose) (radius : R) (n_points : Z)
    (a b : string) (cx cy cz : R) (l : list Z) :
  forall (acc : list Pose) (ls : list loc) (h : store),
    pose_at h o p ->
    match for_in l (loop_body p radius n_points a b cx cy cz) acc with
    | Ok ws =>
        exists new, ws = acc ++ new /\
          for_in_obj l (loop_body_obj o radius n_points a b cx cy cz) ls h
          = (Ok (ls ++ refs (length h) new), h ++ alloc (length h) new)
    | Err e =>
        exists h2,
          for_in_obj l (loop_body_obj o radius n_points a b cx cy cz) ls h
          = (Err e, h ++ h2)
    end.
Proof.
  induction l as [|i l IH]; intros acc ls h Hp.
  - cbn. exists []. rewrite !app_nil_r. split; reflexivity.
  - cbn [for_in for_in_obj]. unfold bind_obj.
    rewrite loop_body_unfold, (loop_body_obj_unfold _ _ _ _ _ _ _ _ _ _ _ _ Hp).
    destruct (truediv _ n_points) as [theta|e].
    + destruct (delta_of radius a b theta) as [d|e].
      * cbn [bind].
        set (w := mkPose (Point.mk (cx + nth 0 d 0) (cy + nth 1 d 0)
                                   (cz + nth 2 d 0))%R (orientation p)).
        specialize (IH (acc ++ [w]) (ls ++ [(length h + 2)%nat])
                       (h ++ cells (length h) w)
                       (pose_at_app _ _ _ _ Hp)).
        destruct (for_in l _ (acc ++ [w])) as [ws|e].
        -- destruct IH as (new & -> & IH). exists (w :: new). split.
           ++ rewrite <- app_assoc. reflexivity.
           ++ rewrite IH. rewrite length_app, cells_length.
              cbn [refs alloc]. rewrite <- !app_assoc. reflexivity.
        -- destruct IH as (h2 & IH). exists (cells (length h) w ++ h2).
           rewrite IH, <- app_assoc. reflexivity.
      * cbn [bind]. exists (cells (length h) p). reflexivity.
    + cbn [bind]. exists []. rewrite app_nil_r. reflexivity.
Qed.

(** The run on the store follows the run on values: it raises the same
    exception, or it returns references to copies that stand for the
    waypoints, all of them added behind the objects that were there. *)
Lemma _build_waypoints_obj_refines (h : store) (o : loc) (p : Pose)
    (radius : R) (n_points : Z) (plane : string) :
  pose_at h o p ->
  match _build_waypoints p radius n_points plane with
  | Ok ws =>
      _build_waypoints_obj o radius n_points plane h
      = (Ok (refs (length h) ws), h ++ alloc (length h) ws)
  | Err e =>
      exists h2, _build_waypoints_obj o radius n_points plane h = (Err e, h ++ h2)
  end.
Proof.
  intros Hp. unfold _build_waypoints, _build_waypoints_obj, bind_obj, lift.
  destruct (str_getitem plane 0) as [a|e];
    [|exists []; rewrite app_nil_r; reflexivity].
  destruct (str_getitem plane 1) as [b|e];
    [|exists []; rewrite app_nil_r; reflexivity].
  cbn [bind]. rewrite (centre_of_obj_pose _ _ _ _ _ Hp).
  destruct (centre_of p radius a) as [[[cx cy] cz]|e];
    [|exists []; rewrite app_nil_r; reflexivity].
  cbn [bind].
  pose proof (for_in_obj_refines o p radius n_points a b cx cy cz
                (range (n_points + 1)) [] [] h Hp) as H.
  destruct (for_in _ _ []) as [ws|e].
  - destruct H as (new & -> & H). exact H.
  - exact H.
Qed.

Lemma refs_pose_at (ws : list Pose) :
  forall h : store,
    Forall2 (pose_at (h ++ alloc (length h) ws)) (refs (length h) ws) ws.
Proof.
  induction ws as [|w ws IH]; intros h; cbn [refs alloc]; constructor.
  - rewrite app_assoc. apply pose_at_app, pose_at_cells.
  - specialize (IH (h ++ cells (length h) w)).
    rewrite length_app, cells_length, <- app_assoc in IH. exact IH.
Qed.

Lemma refs_length (ws : list Pose) (m : nat) : length (refs m ws) = length ws.
Proof. revert m. induction ws; intros m; cbn; [|rewrite IHws]; reflexivity. Qed.

Lemma refs_reach (ws : list Pose) :
  forall h : store,
    flat_map (reach (h ++ alloc (length h) ws)) (refs (length h) ws)
    = triples (length h) ws.
Proof.
  induction ws as [|w ws IH]; intros h; cbn [refs alloc triples flat_map].
  - reflexivity.
  - f_equal.
    + unfold reach. rewrite app_assoc.
      rewrite (lookup_app_l_Some _ _ _ (PoseObject (length h) (length h + 1)%nat));
        [reflexivity|].
      apply (lookup_end h (cells (length h) w) 2).
    + specialize (IH (h ++ cells (length h) w)).
      rewrite length_app, cells_length, <- app_assoc in IH. exact IH.
Qed.

Lemma triples_fresh (ws : list Pose) :
  forall m : nat, Forall (fun k => (m <= k)%nat) (triples m ws).
Proof.
  induction ws as [|w ws IH]; intros m; cbn [triples].
  - constructor.
  - apply Forall_app. split.
    + repeat constructor; lia.
    + eapply Forall_impl; [apply (IH (m + 3)%nat)|]. cbn. intros; lia.
Qed.

Lemma triples_NoDup (ws : list Pose) : forall m : nat, NoDup (triples m ws).
Proof.
  induction ws as [|w ws IH]; intros m; cbn [triples].
  - constructor.
  - apply NoDup_app. split; [|split].
    + repeat constructor; rewrite ?elem_of_cons, ?elem_of_nil; lia.
    + intros k Hk Hk'.
      pose proof (triples_fresh ws (m + 3)%nat) as Hf.
      rewrite Forall_forall in Hf. specialize (Hf k Hk').
      rewrite !elem_of_cons, elem_of_nil in Hk. lia.
    + apply IH.
Qed.

(** ** Properties of [_build_waypoints] *)

Lemma valid_plane_axes (plane : string) :
  valid_plane plane ->
  plane_axes plane = Ok (0, 1)%nat \/ plane_axes plane = Ok (1, 2)%nat \/
  plane_axes plane = Ok (0, 2)%nat.
Proof.
  intros [-> | [-> | ->]]; [left | right; left | right; right]; reflexivity.
Qed.

Lemma circle_centre_Ok (p : Pose) (radius : R) (plane : string) (ia ib : nat) :
  plane_axes plane = Ok (ia, ib) ->
  circle_centre p radius plane = Ok (centre_at (position p) radius ia).
Proof.
  intros Hpl.
  destruct (plane_axes_Ok_inv _ _ _ Hpl) as (a & b & H0 & H1 & Ha & Hb).
  unfold circle_centre. rewrite H0, H1. cbn [bind].
  apply centre_of_Ok, Ha.
Qed.

Lemma waypoints_lookup (p : Pose) (radius : R) (n_points : Z) (ia ib : nat)
    (i : Z) :
  (0 <= i <= n_points)%Z ->
  map (waypoint_at p radius n_points ia ib) (range (n_points + 1)) !! Z.to_nat i
  = Some (waypoint_at p radius n_points ia ib i).
Proof.
  intros Hi. change (map ?f ?l) with (f <$> l).
  rewrite list_lookup_fmap, range_lookup by lia.
  reflexivity.
Qed.

Lemma waypoints_length (p : Pose) (radius : R) (n_points : Z) (ia ib : nat) :
  (0 <= n_points + 1)%Z ->
  Z.of_nat (length (map (waypoint_at p radius n_points ia ib)
                        (range (n_points + 1)))) = (n_points + 1)%Z.
Proof. intros Hn. rewrite length_map, range_length. lia. Qed.

Ltac axes_cases H :=
  destruct (valid_plane_axes _ H) as [?Hax | [?Hax | ?Hax]].

Lemma pose_ext (x1 y1 z1 x2 y2 z2 : R) (q : Quaternion.t) :
  x1 = x2 -> y1 = y2 -> z1 = z2 ->
  mkPose (Point.mk x1 y1 z1) q = mkPose (Point.mk x2 y2 z2) q.
Proof. intros -> -> ->. reflexivity. Qed.

Lemma waypoint_at_coords (p : Pose) (radius : R) (n_points : Z) (ia ib : nat)
    (i : Z) :
  (ia, ib) = (0, 1)%nat \/ (ia, ib) = (1, 2)%nat \/ (ia, ib) = (0, 2)%nat ->
  let w := waypoint_at p radius n_points ia ib i in
  let c := point_of (centre_at (position p) radius ia) in
  coord c ia = (coord (position p) ia - radius)%R /\
  coord c ib = coord (position p) ib /\
  coord c (third_axis ia ib) = coord (position p) (third_axis ia ib) /\
  coord (position w) ia = (coord c ia + radius * cos (theta_of n_points i))%R /\
  coord (position w) ib = (coord c ib + radius * sin (theta_of n_points i))%R /\
  coord (position w) (third_axis ia ib) = coord (position p) (third_axis ia ib) /\
  orientation w = orientation p.
Proof.
  intros [E | [E | E]]; inversion E; subst; cbn; repeat split; lra.
Qed.

Lemma valid_axes (plane : string) (ia ib : nat) :
  valid_plane plane -> plane_axes plane = Ok (ia, ib) ->
  (ia, ib) = (0, 1)%nat \/ (ia, ib) = (1, 2)%nat \/ (ia, ib) = (0, 2)%nat.
Proof.
  intros Hv Hpl. axes_cases Hv; rewrite Hax in Hpl; inversion Hpl; auto.
Qed.

Lemma theta_first (n_points : Z) : theta_of n_points 0 = 0%R.
Proof. unfold theta_of. unfold Rdiv. rewrite Rmult_0_r, Rmult_0_l. reflexivity. Qed.

Lemma waypoint_at_degenerate (p : Pose) (n_points : Z) (ia ib : nat) (i : Z) :
  (ia < 3)%nat -> (ib < 3)%nat ->
  waypoint_at p 0 n_points ia ib i = p.
Proof.
  intros Ha Hb. destruct p as [[x y z] q].
  destruct ia as [|[|[|ia]]]; [| | |lia];
    (destruct ib as [|[|[|ib]]]; [| | |lia]);
    unfold waypoint_at, centre_at, position_at;
    cbn [insert list_insert nth coord position orientation
         Point.x Point.y Point.z];
    apply pose_ext; lra.
Qed.

(** C9. For at least one point and a valid plane, a radius of zero raises
    nothing: the call returns exactly n_points + 1 poses, each with the
    position and the orientation of the start pose. *)
Theorem C9_zero_radius (start_pose : Pose) (n_points : Z) (plane : string) :
  (1 <= n_points)%Z -> valid_plane plane ->
  exists ws : list Pose,
    _build_waypoints start_pose 0 n_points plane = Ok ws /\
    Z.of_nat (length ws) = (n_points + 1)%Z /\
    Forall (fun w => position w = position start_pose /\
                     orientation w = orientation start_pose) ws.
Proof.
  intros Hn Hv.
  assert (exists ia ib, plane_axes plane = Ok (ia, ib) /\ (ia < 3)%nat /\
                        (ib < 3)%nat) as (ia & ib & Hpl & Ha & Hb)
    by (axes_cases Hv; do 2 eexists; (split; [eassumption|lia])).
  exists (map (waypoint_at start_pose 0 n_points ia ib) (range (n_points + 1))).
  split; [apply build_waypoints_Ok; [assumption|lia]|].
  split; [apply waypoints_length; lia|].
  apply Forall_forall. intros w Hw.
  apply list_elem_of_In, in_map_iff in Hw. destruct Hw as (i & <- & _).
  rewrite waypoint_at_degenerate by assumption. split; reflexivity.
Qed.

Lemma C9_witness :
  exists ws : list Pose,
    _build_waypoints (mkPose (Point.mk 1 0 0) (Quaternion.mk 0 0 0 1)) 0 4 "yz"
    = Ok ws /\
    Z.of_nat (length ws) = 5%Z /\
    Forall (fun w => position w = Point.mk 1 0 0 /\
                     orientation w = Quaternion.mk 0 0 0 1) ws.
Proof.
  apply (C9_zero_radius
           (mkPose (Point.mk 1 0 0) (Quaternion.mk 0 0 0 1)) 4 "yz").
  - lia.
  - right; left; reflexivity.
Defined.

(** C10. For a valid plane and a negative point count the call raises
    nothing and returns the empty sequence; below -1 its length, zero, is not
    n_points + 1. *)
Theorem C10_negative_point_count (start_pose : Pose) (radius : R)
    (n_points : Z) (plane : string) :
  valid_plane plane -> (n_points <= -1)%Z ->
  _build_waypoints start_pose radius n_points plane = Ok [] /\
  (forall ws : list Pose,
      _build_waypoints start_pose radius n_points plane = Ok ws ->
      (n_points <= -2)%Z -> Z.of_nat (length ws) <> (n_points + 1)%Z).
Proof.
  intros Hv Hn.
  assert (exists ia ib, plane_axes plane = Ok (ia, ib)) as (ia & ib & Hpl)
    by (axes_cases Hv; eauto).
  destruct (plane_axes_Ok_inv _ _ _ Hpl) as (a & b & H0 & H1 & Ha & _).
  pose proof (build_waypoints_negative start_pose radius n_points plane a b ia
                Hn H0 H1 Ha) as Hb.
  split; [exact Hb|].
  intros ws Hws Hn2. rewrite Hb in Hws. inversion Hws; subst. cbn. lia.
Qed.

Lemma C10_witness :
  _build_waypoints (mkPose (Point.mk 1 0 0) (Quaternion.mk 0 0 0 1)) 0.1 (-3) "xy"
  = Ok [].
Proof.
  apply (C10_negative_point_count
           (mkPose (Point.mk 1 0 0) (Quaternion.mk 0 0 0 1)) 0.1 (-3) "xy").
  - left; reflexivity.
  - lia.
Defined.

(** C6, at a concrete call: with a point count of zero the exception is
    ZeroDivisionError, raised by the division itself, and no invalid-argument
    error. *)
Lemma C6_counterexample :
  _build_waypoints (mkPose (Point.mk 1 0 0) (Quaternion.mk 0 0 0 1)) 0.1 0 "xy"
  = Err ZeroDivisionError /\
  truediv (2 * PI * IZR 0)%R 0 = Err ZeroDivisionError /\
  ~ (exists e : PyError,
        _build_waypoints (mkPose (Point.mk 1 0 0) (Quaternion.mk 0 0 0 1))
                         0.1 0 "xy" = Err e /\
        invalid_argument_error e).
Proof.
  assert (H : _build_waypoints (mkPose (Point.mk 1 0 0) (Quaternion.mk 0 0 0 1))
                               0.1 0 "xy" = Err ZeroDivisionError)
    by (apply (build_waypoints_zero _ _ "xy" "x" "y" 0); reflexivity).
  split; [exact H|]. split; [reflexivity|].
  intros (e & He & Hinv). rewrite H in He. inversion He; subst.
  unfold invalid_argument_error in Hinv. discriminate.
Qed.

(** C6, as the code has it. For a valid plane and any start pose and
    radius, a point count of zero is not checked: the first turn of the loop
    divides by zero and the call raises ZeroDivisionError. *)
Theorem C6_zero_point_count (start_pose : Pose) (radius : R) (plane : string) :
  valid_plane plane ->
  _build_waypoints start_pose radius 0 plane = Err ZeroDivisionError.
Proof.
  intros Hv.
  assert (exists ia ib, plane_axes plane = Ok (ia, ib)) as (ia & ib & Hpl)
    by (axes_cases Hv; eauto).
  destruct (plane_axes_Ok_inv _ _ _ Hpl) as (a & b & H0 & H1 & Ha & _).
  apply (build_waypoints_zero _ _ plane a b ia); assumption.
Qed.

Lemma C6_witness :
  _build_waypoints (mkPose (Point.mk 0 2 5) (Quaternion.mk 0 0 0 1)) 0.25 0 "yz"
  = Err ZeroDivisionError.
Proof.
  apply (C6_zero_point_count
           (mkPose (Point.mk 0 2 5) (Quaternion.mk 0 0 0 1)) 0.25 "yz").
  right; left; reflexivity.
Defined.

Lemma is_axis_lookup (c : ascii) :
  if is_axis c
  then exists i : nat, dict_getitem axis (String c "") = Ok i
  else dict_getitem axis (String c "") = Err KeyError.
Proof.
  unfold is_axis.
  destruct (Ascii.eqb_spec c "x") as [->|Hx]; [exists 0%nat; reflexivity|].
  destruct (Ascii.eqb_spec c "y") as [->|Hy]; [exists 1%nat; reflexivity|].
  destruct (Ascii.eqb_spec c "z") as [->|Hz]; [exists 2%nat; reflexivity|].
  cbn. apply axis_missing; congruence.
Qed.

Lemma plane_axes_letters (c0 c1 : ascii) (rest : string) :
  if is_axis c0 && is_axis c1
  then exists ia ib : nat, plane_axes (String c0 (String c1 rest)) = Ok (ia, ib)
  else plane_axes (String c0 (String c1 rest)) = Err KeyError.
Proof.
  unfold plane_axes, str_getitem. cbn [String.get Nat.eqb bind Nat.pred].
  pose proof (is_axis_lookup c0) as H0. pose proof (is_axis_lookup c1) as H1.
  destruct (is_axis c0).
  - destruct H0 as (ia & ->). cbn [bind andb].
    destruct (is_axis c1).
    + destruct H1 as (ib & ->). exists ia, ib. reflexivity.
    + rewrite H1. reflexivity.
  - rewrite H0. reflexivity.
Qed.

(** C7, at a concrete call: "yx" is none of "xy", "yz", "xz", and the call
    returns five waypoints. *)
Lemma C7_counterexample :
  ~ valid_plane "yx" /\
  (exists ws : list Pose,
      _build_waypoints (mkPose (Point.mk 1 0 0) (Quaternion.mk 0 0 0 1))
                       0.1 4 "yx" = Ok ws /\
      length ws = 5%nat) /\
  ~ (exists e : PyError,
        _build_waypoints (mkPose (Point.mk 1 0 0) (Quaternion.mk 0 0 0 1))
                         0.1 4 "yx" = Err e /\
        invalid_argument_error e).
Proof.
  pose proof (build_waypoints_Ok
                (mkPose (Point.mk 1 0 0) (Quaternion.mk 0 0 0 1)) 0.1 4 "yx" 1 0
                eq_refl ltac:(lia)) as H.
  split; [|split].
  - intros [E | [E | E]]; discriminate.
  - eexists. split; [exact H|]. rewrite length_map, range_length. reflexivity.
  - intros (e & He & _). rewrite H in He. discriminate.
Qed.

(** C7, as the code has it. For at least one point, any start pose and any
    radius: a plane of fewer than two characters raises IndexError; a plane
    whose first two characters are not both among x, y, z raises KeyError;
    every other plane, in the set "xy", "yz", "xz" or not, raises nothing
    and gives n_points + 1 waypoints. *)
Theorem C7_plane_lookup (start_pose : Pose) (radius : R) (n_points : Z)
    (plane : string) :
  (1 <= n_points)%Z ->
  match plane with
  | String c0 (String c1 _) =>
      if is_axis c0 && is_axis c1
      then exists ws : list Pose,
             _build_waypoints start_pose radius n_points plane = Ok ws /\
             Z.of_nat (length ws) = (n_points + 1)%Z
      else _build_waypoints start_pose radius n_points plane = Err KeyError
  | _ => _build_waypoints start_pose radius n_points plane = Err IndexError
  end.
Proof.
  intros Hn. destruct plane as [|c0 [|c1 rest]]; [reflexivity..|].
  pose proof (plane_axes_letters c0 c1 rest) as H.
  destruct (is_axis c0 && is_axis c1).
  - destruct H as (ia & ib & Hpl).
    exists (map (waypoint_at start_pose radius n_points ia ib)
                (range (n_points + 1))).
    split; [apply build_waypoints_Ok; [assumption|lia]|].
    apply waypoints_length. lia.
  - apply build_waypoints_Err; assumption.
Qed.

Lemma C7_witness :
  _build_waypoints (mkPose (Point.mk 1 0 0) (Quaternion.mk 0 0 0 1)) 0.1 4 "xw"
  = Err KeyError.
Proof.
  apply (C7_plane_lookup
           (mkPose (Point.mk 1 0 0) (Quaternion.mk 0 0 0 1)) 0.1 4 "xw").
  lia.
Defined.

Lemma Forall2_exists {A B : Type} (P : A -> B -> Prop) (Q : B -> Prop)
    (l : list A) (k : list B) :
  Forall2 P l k -> Forall Q k ->
  Forall (fun a => exists b, P a b /\ Q b) l.
Proof.
  induction 1 as [|a b l k Hab _ IH]; intros HQ; constructor.
  - exists b. split; [exact Hab|]. apply (Forall_inv HQ).
  - apply IH. apply (Forall_inv_tail HQ).
Qed.

(** C4. For a positive radius, at least one point, a valid plane with axes
    (a, b) and a start pose held in the store: the call returns n_points + 1
    references; every object that was in the store, the start pose with its
    position and orientation among them, is left as it was; the pose, the
    position and the orientation of every waypoint are new objects, no two
    of them the same and none of them reached from the start pose; and every
    waypoint has the orientation of the start pose and its coordinate on the
    axis the plane leaves out. *)
Theorem C4_independent_copies (h : store) (o : loc) (start_pose : Pose)
    (radius : R) (n_points : Z) (plane : string) (ia ib : nat) :
  (0 < radius)%R -> (1 <= n_points)%Z -> valid_plane plane ->
  plane_axes plane = Ok (ia, ib) ->
  pose_at h o start_pose ->
  exists (ls : list loc) (h' : store),
    _build_waypoints_obj o radius n_points plane h = (Ok ls, h') /\
    Z.of_nat (length ls) = (n_points + 1)%Z /\
    (forall (k : loc) (obj : object), h !! k = Some obj -> h' !! k = Some obj) /\
    pose_at h' o start_pose /\
    Forall (fun k => (length h <= k)%nat /\ k ∉ reach h' o)
           (flat_map (reach h') ls) /\
    NoDup (flat_map (reach h') ls) /\
    Forall (fun l =>
              exists w : Pose,
                pose_at h' l w /\
                orientation w = orientation start_pose /\
                coord (position w) (third_axis ia ib)
                = coord (position start_pose) (third_axis ia ib))
           ls.
Proof.
  intros Hr Hn Hv Hpl Hp.
  set (ws := map (waypoint_at start_pose radius n_points ia ib)
                 (range (n_points + 1))).
  assert (Hws : _build_waypoints start_pose radius n_points plane = Ok ws)
    by (apply build_waypoints_Ok; [assumption|lia]).
  pose proof (_build_waypoints_obj_refines h o start_pose radius n_points
                plane Hp) as Href.
  rewrite Hws in Href.
  exists (refs (length h) ws), (h ++ alloc (length h) ws).
  split; [exact Href|].
  split; [rewrite refs_length; apply waypoints_length; lia|].
  split; [intros k obj Hk; apply lookup_app_l_Some, Hk|].
  split; [apply pose_at_app, Hp|].
  rewrite refs_reach.
  split; [|split; [apply triples_NoDup|]].
  - eapply Forall_impl; [apply triples_fresh|].
    intros k Hk. cbn beta in Hk. split; [exact Hk|].
    intros Hin.
    assert (Hlt : (k < length h)%nat).
    { destruct Hp as (lp & lq & Ho & Hlp & Hlq).
      unfold reach in Hin.
      rewrite (lookup_app_l_Some _ _ _ _ Ho) in Hin.
      rewrite !elem_of_cons, elem_of_nil in Hin.
      destruct Hin as [-> | [-> | [-> | []]]];
        eapply lookup_lt_Some; eassumption. }
    lia.
  - apply (Forall2_exists _ _ _ ws (refs_pose_at ws h)).
    apply Forall_forall. intros w Hw.
    apply list_elem_of_In, in_map_iff in Hw. destruct Hw as (i & <- & _).
    pose proof (waypoint_at_coords start_pose radius n_points ia ib i
                  (valid_axes _ _ _ Hv Hpl)) as (_ & _ & _ & _ & _ & Hc & Ho).
    split; assumption.
Qed.

Lemma C4_witness :
  exists (ls : list loc) (h' : store),
    _build_waypoints_obj 2%nat 0.1 4 "xy"
      [PointObject 1 0 0; QuaternionObject 0 0 0 1; PoseObject 0 1]
    = (Ok ls, h') /\
    h' !! 2%nat = Some (PoseObject 0 1) /\
    h' !! 0%nat = Some (PointObject 1 0 0) /\
    NoDup (flat_map (reach h') ls).
Proof.
  destruct (C4_independent_copies
              [PointObject 1 0 0; QuaternionObject 0 0 0 1; PoseObject 0 1]
              2%nat (mkPose (Point.mk 1 0 0) (Quaternion.mk 0 0 0 1))
              0.1 4 "xy" 0 1)
    as (ls & h' & Hrun & _ & Hold & _ & _ & Hnd & _).
  - lra.
  - lia.
  - left; reflexivity.
  - reflexivity.
  - exists 0%nat, 1%nat. repeat split; reflexivity.
  - exists ls, h'. split; [exact Hrun|].
    split; [apply Hold; reflexivity|].
    split; [apply Hold; reflexivity|exact Hnd].
Defined.

(** ** Properties of [plan_cartesian_circle] *)

Section PlannerLemmas.

Context {St RobotTrajectory : Type}.
Variable move_group : MoveGroupCommander.t St RobotTrajectory.
Variables (radius : R) (n_points : Z) (plane : string).
Variables (eef_step jump_threshold velocity_scale : R) (execute : bool).
Variable completeness_threshold : R.

(** The whole run, call by call: where it can stop, what it returns there,
    and the calls made up to there. *)
Lemma plan_cartesian_circle_run (s0 : St) :
  plan_cartesian_circle move_group radius n_points plane eef_step
    jump_threshold velocity_scale execute completeness_threshold (s0, [])
  = match MoveGroupCommander.set_max_velocity_scaling_factor
            move_group velocity_scale s0 with
    | (Err e, s1) => (Err e, (s1, [SetMaxVelocityScalingFactor velocity_scale]))
    | (Ok _, s1) =>
        match MoveGroupCommander.get_current_pose move_group s1 with
        | (Err e, s2) =>
            (Err e, (s2, [SetMaxVelocityScalingFactor velocity_scale;
                          GetCurrentPose]))
        | (Ok current, s2) =>
            match _build_waypoints (pose current) radius n_points plane with
            | Err e =>
                (Err e, (s2, [SetMaxVelocityScalingFactor velocity_scale;
                              GetCurrentPose]))
            | Ok waypoints =>
                let calls :=
                  [SetMaxVelocityScalingFactor velocity_scale; GetCurrentPose;
                   ComputeCartesianPath waypoints eef_step jump_threshold true]
                in
                match MoveGroupCommander.compute_cartesian_path move_group
                        waypoints eef_step jump_threshold true s2 with
                | (Err e, s3) => (Err e, (s3, calls))
                | (Ok (traj, fraction), s3) =>
                    if execute && float_ge fraction completeness_threshold
                    then
                      match MoveGroupCommander.execute move_group traj true s3
                      with
                      | (Err e, s4) => (Err e, (s4, calls ++ [Execute traj true]))
                      | (Ok _, s4) =>
                          (Ok (traj, fraction),
                           (s4, calls ++ [Execute traj true]))
                      end
                    else (Ok (traj, fraction), (s3, calls))
                end
            end
        end
    end.
Proof.
  unfold plan_cartesian_circle, bind_plan, invoke, lift_plan, ret_plan.
  destruct (MoveGroupCommander.set_max_velocity_scaling_factor _ _ s0)
    as [[u|e] s1]; [|reflexivity].
  destruct (MoveGroupCommander.get_current_pose _ s1) as [[current|e] s2];
    [|reflexivity].
  destruct (_build_waypoints _ _ _ _) as [waypoints|e]; [|reflexivity].
  destruct (MoveGroupCommander.compute_cartesian_path _ _ _ _ _ s2)
    as [[[traj fraction]|e] s3]; [|reflexivity].
  destruct (execute && float_ge fraction completeness_threshold);
    [|reflexivity].
  destruct (MoveGroupCommander.execute _ _ _ s3) as [[u'|e] s4]; reflexivity.
Qed.

End PlannerLemmas.

Lemma float_ge_true (x y : R) : float_ge x y = true <-> (x >= y)%R.
Proof.
  unfold float_ge. destruct (Rge_dec x y); split; intros; try assumption;
    try reflexivity; try discriminate; contradiction.
Qed.

(** With a point count of zero the call raises, whatever the plane. *)
Lemma build_waypoints_zero_raises (p : Pose) (radius : R) (plane : string) :
  exists e : PyError,
    _build_waypoints p radius 0 plane = Err e /\
    (e = ZeroDivisionError \/ e = IndexError \/ e = KeyError).
Proof.
  unfold _build_waypoints.
  destruct (str_getitem plane 0) as [a|e] eqn:H0.
  - destruct (str_getitem plane 1) as [b|e] eqn:H1.
    + destruct (dict_getitem axis a) as [ia|e] eqn:Ha.
      * exists ZeroDivisionError. split; [|auto].
        pose proof (build_waypoints_zero p radius plane a b ia H0 H1 Ha) as H.
        unfold _build_waypoints in H. rewrite H0, H1 in H. exact H.
      * exists e. cbn [bind]. unfold centre_of, shift_centre. rewrite Ha.
        split; [reflexivity|]. right; right. eapply axis_error; eassumption.
    + exists e. split; [reflexivity|]. right; left.
      unfold str_getitem in H1. destruct (get 1 plane); congruence.
  - exists e. split; [reflexivity|]. right; left.
    unfold str_getitem in H0. destruct (get 0 plane); congruence.
Qed.

(** C5. In a run in which the calls up to compute_cartesian_path return
    normally and the path comes back as (traj, fraction): execute is called
    exactly once, on traj and with wait=True, if and only if the execute
    argument is True and fraction >= completeness_threshold, and is not
    called otherwise (not at fraction 0.5 with threshold 0.95; once at
    fraction 0.97 with that threshold); and the run returns
    (traj, fraction), both when execute was not called and when it was called
    and returned. *)
Theorem C5_execute_gating {St RobotTrajectory : Type}
    (move_group : MoveGroupCommander.t St RobotTrajectory)
    (radius : R) (n_points : Z) (plane : string)
    (eef_step jump_threshold velocity_scale : R) (execute : bool)
    (completeness_threshold : R)
    (s0 s1 s2 s3 : St) (current : PoseStamped) (waypoints : list Pose)
    (traj : RobotTrajectory) (fraction : R) :
  MoveGroupCommander.set_max_velocity_scaling_factor move_group velocity_scale s0
  = (Ok tt, s1) ->
  MoveGroupCommander.get_current_pose move_group s1 = (Ok current, s2) ->
  _build_waypoints (pose current) radius n_points plane = Ok waypoints ->
  MoveGroupCommander.compute_cartesian_path move_group waypoints eef_step
    jump_threshold true s2 = (Ok (traj, fraction), s3) ->
  let run :=
    plan_cartesian_circle move_group radius n_points plane eef_step
      jump_threshold velocity_scale execute completeness_threshold (s0, []) in
  let log := snd (snd run) in
  (executions log = [Execute traj true]
   <-> execute = true /\ (fraction >= completeness_threshold)%R) /\
  (executions log = []
   <-> ~ (execute = true /\ (fraction >= completeness_threshold)%R)) /\
  (fraction = 0.5%R -> completeness_threshold = 0.95%R -> executions log = []) /\
  (execute = true -> fraction = 0.97%R -> completeness_threshold = 0.95%R ->
   executions log = [Execute traj true]) /\
  (executions log = [] -> fst run = Ok (traj, fraction)) /\
  (forall s4 : St,
      MoveGroupCommander.execute move_group traj true s3 = (Ok tt, s4) ->
      fst run = Ok (traj, fraction)).
Proof.
  intros Hset Hget Hbuild Hpath run log. subst log run.
  rewrite plan_cartesian_circle_run, Hset, Hget, Hbuild, Hpath.
  cbv zeta.
  destruct (execute && float_ge fraction completeness_threshold) eqn:Hgate.
  - apply andb_true_iff in Hgate. destruct Hgate as [Hex Hge].
    apply float_ge_true in Hge.
    assert (Hlog : forall (r : result (RobotTrajectory * R)) (s : St),
               executions (snd (snd (r, (s,
                 [SetMaxVelocityScalingFactor velocity_scale; GetCurrentPose;
                  ComputeCartesianPath waypoints eef_step jump_threshold true]
                 ++ [Execute traj true]))))
               = [Execute traj true]) by reflexivity.
    destruct (MoveGroupCommander.execute move_group traj true s3)
      as [[u|e] s4]; rewrite Hlog;
      (split; [split; [auto|reflexivity]|]);
      (split; [split; [discriminate|intros Hno; exfalso; apply Hno; auto]|]);
      (split; [intros -> ->; lra|]);
      (split; [reflexivity|]);
      (split; [discriminate|]).
    + intros; reflexivity.
    + intros s4' E. discriminate.
  - cbn [fst snd executions List.filter is_execute].
    assert (Hno : ~ (execute = true /\ (fraction >= completeness_threshold)%R)).
    { intros [-> Hge]. apply float_ge_true in Hge. rewrite Hge in Hgate.
      discriminate. }
    split; [split; [discriminate|intros H; contradiction]|].
    split; [split; [intros _; exact Hno|reflexivity]|].
    split; [reflexivity|].
    split; [intros -> -> ->; exfalso; apply Hno; split; [reflexivity|lra]|].
    split; intros; reflexivity.
Qed.

Lemma C5_witness :
  executions
    (snd (snd (plan_cartesian_circle
                 (stub (mkPoseStamped (mkHeader 0 (0, 0)%Z "base_link")
                          (mkPose (Point.mk 1 0 0) (Quaternion.mk 0 0 0 1)))
                       0.97)
                 0.1 4 "xy" 0.005 0 0.2 true 0.95 (0%nat, []))))
  = [Execute (map (waypoint_at (mkPose (Point.mk 1 0 0) (Quaternion.mk 0 0 0 1))
                               0.1 4 0 1) (range (4 + 1)))
             true].
Proof.
  refine (proj1 (proj2 (proj2 (proj2
            (C5_execute_gating
               (stub (mkPoseStamped (mkHeader 0 (0, 0)%Z "base_link")
                        (mkPose (Point.mk 1 0 0) (Quaternion.mk 0 0 0 1)))
                     0.97)
               0.1 4 "xy" 0.005 0 0.2 true 0.95 0%nat 0%nat 0%nat 0%nat
               (mkPoseStamped (mkHeader 0 (0, 0)%Z "base_link")
                  (mkPose (Point.mk 1 0 0) (Quaternion.mk 0 0 0 1)))
               (map (waypoint_at
                       (mkPose (Point.mk 1 0 0) (Quaternion.mk 0 0 0 1))
                       0.1 4 0 1) (range (4 + 1)))
               (map (waypoint_at
                       (mkPose (Point.mk 1 0 0) (Quaternion.mk 0 0 0 1))
                       0.1 4 0 1) (range (4 + 1)))
               0.97 _ _ _ _)))) _ _ _).
  - reflexivity.
  - reflexivity.
  - apply build_waypoints_Ok; [reflexivity|lia].
  - reflexivity.
  - reflexivity.
  - reflexivity.
  - reflexivity.
Defined.

(** C8, at two concrete calls on a move group that never fails: with a
    point count of zero, and with the plane "ab", the run ends in the
    exception of the waypoint generator after two calls on the move group. *)
Lemma C8_counterexample :
  plan_cartesian_circle
    (stub (mkPoseStamped (mkHeader 0 (0, 0)%Z "base_link")
             (mkPose (Point.mk 1 0 0) (Quaternion.mk 0 0 0 1))) 1)
    0.1 0 "xy" 0.005 0 0.2 true 0.95 (0%nat, [])
  = (Err ZeroDivisionError,
     (0%nat, [SetMaxVelocityScalingFactor 0.2; GetCurrentPose])) /\
  plan_cartesian_circle
    (stub (mkPoseStamped (mkHeader 0 (0, 0)%Z "base_link")
             (mkPose (Point.mk 1 0 0) (Quaternion.mk 0 0 0 1))) 1)
    0.1 120 "ab" 0.005 0 0.2 true 0.95 (0%nat, [])
  = (Err KeyError,
     (0%nat, [SetMaxVelocityScalingFactor 0.2; GetCurrentPose])).
Proof.
  split; rewrite plan_cartesian_circle_run; cbn [stub
    MoveGroupCommander.set_max_velocity_scaling_factor
    MoveGroupCommander.get_current_pose pose].
  - rewrite (build_waypoints_zero _ _ "xy" "x" "y" 0) by reflexivity.
    reflexivity.
  - rewrite (build_waypoints_Err _ _ 120 "ab" KeyError) by (lia || reflexivity).
    reflexivity.
Qed.

(** C8, as the code has it. When the point count is zero, or is at least one
    with a plane whose axes cannot be looked up, and the first two calls on
    the move group return normally: the waypoint generator raises
    (ZeroDivisionError, IndexError or KeyError), the run ends in that
    exception, and the calls made are set_max_velocity_scaling_factor and
    get_current_pose, in this order, and no other: compute_cartesian_path
    and execute are not called. *)
Theorem C8_error_after_two_calls {St RobotTrajectory : Type}
    (move_group : MoveGroupCommander.t St RobotTrajectory)
    (radius : R) (n_points : Z) (plane : string)
    (eef_step jump_threshold velocity_scale : R) (execute : bool)
    (completeness_threshold : R)
    (s0 s1 s2 : St) (current : PoseStamped) :
  MoveGroupCommander.set_max_velocity_scaling_factor move_group velocity_scale s0
  = (Ok tt, s1) ->
  MoveGroupCommander.get_current_pose move_group s1 = (Ok current, s2) ->
  n_points = 0%Z \/
  ((1 <= n_points)%Z /\ exists e0 : PyError, plane_axes plane = Err e0) ->
  exists e : PyError,
    _build_waypoints (pose current) radius n_points plane = Err e /\
    (e = ZeroDivisionError \/ e = IndexError \/ e = KeyError) /\
    plan_cartesian_circle move_group radius n_points plane eef_step
      jump_threshold velocity_scale execute completeness_threshold (s0, [])
    = (Err e,
       (s2, [SetMaxVelocityScalingFactor velocity_scale; GetCurrentPose])).
Proof.
  intros Hset Hget Hbad.
  assert (exists e : PyError,
             _build_waypoints (pose current) radius n_points plane = Err e /\
             (e = ZeroDivisionError \/ e = IndexError \/ e = KeyError))
    as (e & He & Hkind).
  { destruct Hbad as [-> | [Hn (e0 & Hpl)]].
    - apply build_waypoints_zero_raises.
    - exists e0. split; [apply build_waypoints_Err; assumption|].
      destruct (plane_axes_error _ _ Hpl) as [[-> _] | [-> _]]; auto. }
  exists e. split; [exact He|]. split; [exact Hkind|].
  rewrite plan_cartesian_circle_run, Hset, Hget, He. reflexivity.
Qed.

Lemma C8_witness :
  exists e : PyError,
    plan_cartesian_circle
      (stub (mkPoseStamped (mkHeader 0 (0, 0)%Z "base_link")
               (mkPose (Point.mk 1 0 0) (Quaternion.mk 0 0 0 1))) 1)
      0.1 0 "xz" 0.005 0 0.2 true 0.95 (0%nat, [])
    = (Err e, (0%nat, [SetMaxVelocityScalingFactor 0.2; GetCurrentPose])).
Proof.
  destruct (C8_error_after_two_calls
              (stub (mkPoseStamped (mkHeader 0 (0, 0)%Z "base_link")
                       (mkPose (Point.mk 1 0 0) (Quaternion.mk 0 0 0 1))) 1)
              0.1 0 "xz" 0.005 0 0.2 true 0.95 0%nat 0%nat 0%nat
              (mkPoseStamped (mkHeader 0 (0, 0)%Z "base_link")
                 (mkPose (Point.mk 1 0 0) (Quaternion.mk 0 0 0 1))))
    as (e & _ & _ & Hrun).
  - reflexivity.
  - reflexivity.
  - left; reflexivity.
  - exists e. exact Hrun.
Defined.

(** ** Further properties of [_build_waypoints] *)

Lemma build_waypoints_bad_first (p : Pose) (radius : R) (n_points : Z)
    (c0 c1 : ascii) (rest : string) :
  is_axis c0 = false ->
  _build_waypoints p radius n_points (String c0 (String c1 rest)) = Err KeyError.
Proof.
  intros H0. pose proof (is_axis_lookup c0) as Hl. rewrite H0 in Hl.
  unfold _build_waypoints, str_getitem.
  cbn [String.get Nat.eqb bind Nat.pred].
  unfold centre_of, shift_centre. rewrite Hl. reflexivity.
Qed.

Lemma plane_axes_range (plane : string) (ia ib : nat) :
  plane_axes plane = Ok (ia, ib) -> (ia < 3)%nat /\ (ib < 3)%nat.
Proof.
  intros Hpl.
  destruct (plane_axes_Ok_inv _ _ _ Hpl) as (a & b & _ & _ & Ha & Hb).
  split; eapply axis_Ok_range; eassumption.
Qed.

Ltac axes_enum ia ib :=
  destruct ia as [|[|[|ia]]]; [| | |lia];
  (destruct ib as [|[|[|ib]]]; [| | |lia]);
  try congruence.

Ltac waypoint_compute :=
  unfold waypoint_at, centre_at, position_at;
  cbn [insert list_insert nth coord position orientation
       Point.x Point.y Point.z].

Lemma waypoint_at_doubled (p : Pose) (radius : R) (n_points : Z) (ia : nat)
    (i : Z) :
  (ia < 3)%nat ->
  let w := waypoint_at p radius n_points ia ia i in
  coord (position w) ia
  = (coord (position p) ia - radius + radius * sin (theta_of n_points i))%R /\
  (forall k : nat, (k < 3)%nat -> k <> ia ->
                   coord (position w) k = coord (position p) k) /\
  orientation w = orientation p.
Proof.
  intros Ha. destruct p as [[x y z] q].
  destruct ia as [|[|[|ia]]]; [| | |lia]; waypoint_compute;
    (split; [reflexivity|]);
    (split; [|reflexivity]);
    intros [|[|[|k]]] Hk Hne; try lia; try congruence;
    cbn [coord position Point.x Point.y Point.z]; lra.
Qed.

(** X3. A plane that names one axis twice ("xx", "yy", "zz") is accepted,
    and the sine overwrites the cosine in the offset: with at least one
    point, waypoint i lies on the line through the start position along that
    axis, at start - radius + radius * sin (2 pi i / n_points); its two
    other coordinates and its orientation are the start pose's. The first
    waypoint is therefore one radius behind the start pose, not at it. *)
Theorem X3_doubled_axis_is_a_segment (start_pose : Pose) (radius : R)
    (n_points : Z) (plane : string) (ia : nat) :
  plane_axes plane = Ok (ia, ia) -> (1 <= n_points)%Z ->
  exists ws : list Pose,
    _build_waypoints start_pose radius n_points plane = Ok ws /\
    (forall i : Z, (0 <= i <= n_points)%Z ->
       exists w : Pose,
         ws !! Z.to_nat i = Some w /\
         coord (position w) ia
         = (coord (position start_pose) ia - radius
            + radius * sin (2 * PI * IZR i / IZR n_points))%R /\
         (forall k : nat, (k < 3)%nat -> k <> ia ->
                          coord (position w) k = coord (position start_pose) k) /\
         orientation w = orientation start_pose) /\
    (exists w0 : Pose,
        ws !! 0%nat = Some w0 /\
        coord (position w0) ia = (coord (position start_pose) ia - radius)%R).
Proof.
  intros Hpl Hn. destruct (plane_axes_range _ _ _ Hpl) as [Ha _].
  exists (map (waypoint_at start_pose radius n_points ia ia)
              (range (n_points + 1))).
  split; [apply build_waypoints_Ok; [assumption|lia]|].
  split.
  - intros i Hi. exists (waypoint_at start_pose radius n_points ia ia i).
    split; [apply waypoints_lookup; assumption|].
    apply waypoint_at_doubled, Ha.
  - exists (waypoint_at start_pose radius n_points ia ia 0).
    split; [apply (waypoints_lookup _ _ _ _ _ 0); lia|].
    destruct (waypoint_at_doubled start_pose radius n_points ia 0 Ha)
      as (H & _). rewrite H, theta_first, sin_0. lra.
Qed.

Lemma X3_witness :
  exists ws : list Pose,
    _build_waypoints (mkPose (Point.mk 1 2 3) (Quaternion.mk 0 0 0 1))
                     0.5 8 "yy" = Ok ws /\
    (exists w0 : Pose,
        ws !! 0%nat = Some w0 /\ Point.y (position w0) = (2 - 0.5)%R).
Proof.
  destruct (X3_doubled_axis_is_a_segment
              (mkPose (Point.mk 1 2 3) (Quaternion.mk 0 0 0 1)) 0.5 8 "yy" 1)
    as (ws & Hws & _ & Hw0).
  - reflexivity.
  - lia.
  - exists ws. split; [exact Hws|exact Hw0].
Defined.

(** ** Further properties of [_build_waypoints] on the object store *)

(** X6. For every radius, point count and plane, also when the call raises:
    the call never overwrites an object that was in the store, so the start
    pose still stands for the same value afterwards; it raises exactly when
    the computation on values raises, with the same exception; and the
    references it returns stand for the waypoints computed on values, each
    made of objects that were not in the store before and that no other
    waypoint shares. *)
Theorem X6_store_only_grows (h : store) (o : loc) (start_pose : Pose)
    (radius : R) (n_points : Z) (plane : string) :
  pose_at h o start_pose ->
  exists (res : result (list loc)) (h2 : store),
    _build_waypoints_obj o radius n_points plane h = (res, h ++ h2) /\
    (forall (k : loc) (obj : object),
        h !! k = Some obj -> (h ++ h2) !! k = Some obj) /\
    pose_at (h ++ h2) o start_pose /\
    match _build_waypoints start_pose radius n_points plane with
    | Ok ws =>
        exists ls : list loc,
          res = Ok ls /\
          Forall2 (pose_at (h ++ h2)) ls ws /\
          NoDup (flat_map (reach (h ++ h2)) ls) /\
          Forall (fun k => (length h <= k)%nat) (flat_map (reach (h ++ h2)) ls)
    | Err e => res = Err e
    end.
Proof.
  intros Hp.
  pose proof (_build_waypoints_obj_refines h o start_pose radius n_points
                plane Hp) as Href.
  destruct (_build_waypoints start_pose radius n_points plane) as [ws|e].
  - exists (Ok (refs (length h) ws)), (alloc (length h) ws).
    split; [exact Href|].
    split; [intros k obj Hk; apply lookup_app_l_Some, Hk|].
    split; [apply pose_at_app, Hp|].
    exists (refs (length h) ws). split; [reflexivity|].
    split; [apply refs_pose_at|].
    rewrite refs_reach. split; [apply triples_NoDup|apply triples_fresh].
  - destruct Href as (h2 & Href). exists (Err e), h2.
    split; [exact Href|].
    split; [intros k obj Hk; apply lookup_app_l_Some, Hk|].
    split; [apply pose_at_app, Hp|reflexivity].
Qed.

Lemma X6_witness :
  exists (res : result (list loc)) (h2 : store),
    _build_waypoints_obj 2%nat 0.1 3 "xq"
      [PointObject 1 0 0; QuaternionObject 0 0 0 1; PoseObject 0 1]
    = (res, [PointObject 1 0 0; QuaternionObject 0 0 0 1; PoseObject 0 1] ++ h2)
    /\ res = Err KeyError.
Proof.
  destruct (X6_store_only_grows
              [PointObject 1 0 0; QuaternionObject 0 0 0 1; PoseObject 0 1]
              2%nat (mkPose (Point.mk 1 0 0) (Quaternion.mk 0 0 0 1))
              0.1 3 "xq")
    as (res & h2 & Hrun & _ & _ & Hres).
  - exists 0%nat, 1%nat. repeat split; reflexivity.
  - exists res, h2. split; [exact Hrun|].
    rewrite (build_waypoints_Err _ _ 3 "xq" KeyError) in Hres
      by (lia || reflexivity).
    exact Hres.
Defined.

(** ** Further properties of [plan_cartesian_circle] *)

(** X7. An exception raised by the move group is not caught: whichever of
    the four calls raises, the run ends in that exception, the raising call
    is the last one made, and nothing is returned; in particular an exception
    of execute loses the planned (traj, fraction). *)
Theorem X7_collaborator_errors_propagate {St RobotTrajectory : Type}
    (move_group : MoveGroupCommander.t St RobotTrajectory)
    (radius : R) (n_points : Z) (plane : string)
    (eef_step jump_threshold velocity_scale : R) (execute : bool)
    (completeness_threshold : R) (s0 : St) (e : PyError) :
  let run :=
    plan_cartesian_circle move_group radius n_points plane eef_step
      jump_threshold velocity_scale execute completeness_threshold (s0, []) in
  let set_call := SetMaxVelocityScalingFactor velocity_scale in
  (forall s1 : St,
      MoveGroupCommander.set_max_velocity_scaling_factor
        move_group velocity_scale s0 = (Err e, s1) ->
      run = (Err e, (s1, [set_call]))) /\
  (forall s1 s2 : St,
      MoveGroupCommander.set_max_velocity_scaling_factor
        move_group velocity_scale s0 = (Ok tt, s1) ->
      MoveGroupCommander.get_current_pose move_group s1 = (Err e, s2) ->
      run = (Err e, (s2, [set_call; GetCurrentPose]))) /\
  (forall (s1 s2 s3 : St) (current : PoseStamped) (waypoints : list Pose),
      MoveGroupCommander.set_max_velocity_scaling_factor
        move_group velocity_scale s0 = (Ok tt, s1) ->
      MoveGroupCommander.get_current_pose move_group s1 = (Ok current, s2) ->
      _build_waypoints (pose current) radius n_points plane = Ok waypoints ->
      MoveGroupCommander.compute_cartesian_path move_group waypoints eef_step
        jump_threshold true s2 = (Err e, s3) ->
      run = (Err e,
             (s3, [set_call; GetCurrentPose;
                   ComputeCartesianPath waypoints eef_step jump_threshold
                     true]))) /\
  (forall (s1 s2 s3 s4 : St) (current : PoseStamped) (waypoints : list Pose)
          (traj : RobotTrajectory) (fraction : R),
      MoveGroupCommander.set_max_velocity_scaling_factor
        move_group velocity_scale s0 = (Ok tt, s1) ->
      MoveGroupCommander.get_current_pose move_group s1 = (Ok current, s2) ->
      _build_waypoints (pose current) radius n_points plane = Ok waypoints ->
      MoveGroupCommander.compute_cartesian_path move_group waypoints eef_step
        jump_threshold true s2 = (Ok (traj, fraction), s3) ->
      execute = true -> (fraction >= completeness_threshold)%R ->
      MoveGroupCommander.execute move_group traj true s3 = (Err e, s4) ->
      run = (Err e,
             (s4, [set_call; GetCurrentPose;
                   ComputeCartesianPath waypoints eef_step jump_threshold true;
                   Execute traj true]))).
Proof.
  intros run set_call. subst run set_call.
  rewrite plan_cartesian_circle_run.
  split; [|split; [|split]].
  - intros s1 ->. reflexivity.
  - intros s1 s2 -> ->. reflexivity.
  - intros s1 s2 s3 current waypoints -> -> -> ->. reflexivity.
  - intros s1 s2 s3 s4 current waypoints traj fraction
      -> -> -> -> -> Hge ->.
    apply float_ge_true in Hge. rewrite Hge. reflexivity.
Qed.

Lemma X7_witness :
  plan_cartesian_circle
    (scripted (Ok tt)
       (Ok (mkPoseStamped (mkHeader 0 (0, 0)%Z "base_link")
              (mkPose (Point.mk 1 0 0) (Quaternion.mk 0 0 0 1))))
       (Ok ([], 1%R))
       (Err (MoveItCommanderException "aborted")))
    0.1 (-1) "xy" 0.005 0 0.2 true 0.95 (tt, [])
  = (Err (MoveItCommanderException "aborted"),
     (tt, [SetMaxVelocityScalingFactor 0.2; GetCurrentPose;
           ComputeCartesianPath [] 0.005 0 true; Execute [] true])).
Proof.
  refine (proj2 (proj2 (proj2
            (X7_collaborator_errors_propagate
               (scripted (Ok tt)
                  (Ok (mkPoseStamped (mkHeader 0 (0, 0)%Z "base_link")
                         (mkPose (Point.mk 1 0 0) (Quaternion.mk 0 0 0 1))))
                  (Ok ([], 1%R))
                  (Err (MoveItCommanderException "aborted")))
               0.1 (-1) "xy" 0.005 0 0.2 true 0.95 tt
               (MoveItCommanderException "aborted"))))
            tt tt tt tt
            (mkPoseStamped (mkHeader 0 (0, 0)%Z "base_link")
               (mkPose (Point.mk 1 0 0) (Quaternion.mk 0 0 0 1)))
            [] [] 1%R _ _ _ _ _ _ _).
  - reflexivity.
  - reflexivity.
  - apply (build_waypoints_negative _ _ _ _ "x" "y" 0); [lia|reflexivity..].
  - reflexivity.
  - reflexivity.
  - lra.
  - reflexivity.
Defined.

(** X8. The calls of every run, whatever the move group does and whatever
    the arguments are, form a beginning of one fixed sequence:
    set_max_velocity_scaling_factor(velocity_scale) always comes first,
    also when the arguments make the generator raise; then
    get_current_pose(); then compute_cartesian_path, on the waypoints
    generated from the pose just reported, with the eef_step and
    jump_threshold given and avoid_collisions=True; then, only when the
    execute argument is True, execute on the trajectory just planned, with
    wait=True. No call is made twice and no other order occurs. *)
Theorem X8_call_protocol {St RobotTrajectory : Type}
    (move_group : MoveGroupCommander.t St RobotTrajectory)
    (radius : R) (n_points : Z) (plane : string)
    (eef_step jump_threshold velocity_scale : R) (execute : bool)
    (completeness_threshold : R) (s0 : St) :
  let run :=
    plan_cartesian_circle move_group radius n_points plane eef_step
      jump_threshold velocity_scale execute completeness_threshold (s0, []) in
  let log := snd (snd run) in
  let set_call := SetMaxVelocityScalingFactor velocity_scale in
  log = [set_call] \/
  log = [set_call; GetCurrentPose] \/
  exists (u : unit) (s1 s2 : St) (current : PoseStamped)
         (waypoints : list Pose),
    MoveGroupCommander.set_max_velocity_scaling_factor
      move_group velocity_scale s0 = (Ok u, s1) /\
    MoveGroupCommander.get_current_pose move_group s1 = (Ok current, s2) /\
    _build_waypoints (pose current) radius n_points plane = Ok waypoints /\
    let path_call :=
      ComputeCartesianPath waypoints eef_step jump_threshold true in
    (log = [set_call; GetCurrentPose; path_call] \/
     exists (traj : RobotTrajectory) (fraction : R) (s3 : St),
       MoveGroupCommander.compute_cartesian_path move_group waypoints
         eef_step jump_threshold true s2 = (Ok (traj, fraction), s3) /\
       execute = true /\
       log = [set_call; GetCurrentPose; path_call; Execute traj true]).
Proof.
  intros run log set_call. subst log run set_call.
  rewrite plan_cartesian_circle_run.
  destruct (MoveGroupCommander.set_max_velocity_scaling_factor _ _ s0)
    as [[u|e] s1] eqn:Hset; [|left; reflexivity].
  destruct (MoveGroupCommander.get_current_pose _ s1) as [[current|e] s2]
    eqn:Hget; [|right; left; reflexivity].
  destruct (_build_waypoints _ _ _ _) as [waypoints|e] eqn:Hb;
    [|right; left; reflexivity].
  right; right. exists u, s1, s2, current, waypoints.
  do 3 (split; [first [assumption | reflexivity]|]). cbv zeta.
  destruct (MoveGroupCommander.compute_cartesian_path _ _ _ _ _ s2)
    as [[[traj fraction]|e] s3] eqn:Hpath; [|left; reflexivity].
  destruct execute; cbn [andb]; [|left; reflexivity].
  destruct (float_ge fraction completeness_threshold); [|left; reflexivity].
  right. exists traj, fraction, s3. split; [reflexivity|]. split; [reflexivity|].
  destruct (MoveGroupCommander.execute _ _ _ s3) as [[u'|e] s4]; reflexivity.
Qed.


(** ** Properties of [_build_waypoints] in binary64 *)

#[local] Set Warnings "-inexact-float".

(** The decimal numbers below stand for the binary64 numbers nearest to
    them, as in Python source. *)
Lemma decimal_literals :
  0.1%float = 0x1.999999999999ap-4%float /\
  0.9%float = 0x1.ccccccccccccdp-1%float /\
  0.8%float = 0x1.999999999999ap-1%float /\
  1.2246467991473533e-17%float = 0x1.c3d09eb53c672p-57%float /\
  (-2.4492935982947065e-17)%float = (-0x1.c3d09eb53c672p-56)%float.
Proof. repeat split; reflexivity. Qed.

(** The four-point example as the program computes it. *)
Lemma example_waypoints64 (q : Quaternion64.t) :
  _build_waypoints_f64 cos_table sin_table (example_pose64 q) 0.1 4 "xy"
  = Ok [mkPose64 (Point64.mk 1 0 0) q;
        mkPose64 (Point64.mk 0.9 0.1 0) q;
        mkPose64 (Point64.mk 0.8 1.2246467991473533e-17 0) q;
        mkPose64 (Point64.mk 0.9 (-0.1) 0) q;
        mkPose64 (Point64.mk 1 (-2.4492935982947065e-17) 0) q].
Proof. vm_compute. reflexivity. Qed.

Lemma example_centre64 (q : Quaternion64.t) :
  circle_centre64 (example_pose64 q) 0.1 "xy" = Ok (0.9, 0, 0)%float.
Proof. vm_compute. reflexivity. Qed.

(** C1, at the example of the claim, in binary64: the third waypoint is at
    (0.8, 1.2246467991473533e-17, 0) and the fifth at
    (1, -2.4492935982947065e-17, 0), so the waypoints are not the five
    positions of the claim. *)
Lemma C1_counterexample :
  _build_waypoints_f64 cos_table sin_table
    (example_pose64 (Quaternion64.mk 0 0 0 1)) 0.1 4 "xy"
  = Ok [mkPose64 (Point64.mk 1 0 0) (Quaternion64.mk 0 0 0 1);
        mkPose64 (Point64.mk 0.9 0.1 0) (Quaternion64.mk 0 0 0 1);
        mkPose64 (Point64.mk 0.8 1.2246467991473533e-17 0)
                 (Quaternion64.mk 0 0 0 1);
        mkPose64 (Point64.mk 0.9 (-0.1) 0) (Quaternion64.mk 0 0 0 1);
        mkPose64 (Point64.mk 1 (-2.4492935982947065e-17) 0)
                 (Quaternion64.mk 0 0 0 1)] /\
  _build_waypoints_f64 cos_table sin_table
    (example_pose64 (Quaternion64.mk 0 0 0 1)) 0.1 4 "xy"
  <> Ok [mkPose64 (Point64.mk 1 0 0) (Quaternion64.mk 0 0 0 1);
         mkPose64 (Point64.mk 0.9 0.1 0) (Quaternion64.mk 0 0 0 1);
         mkPose64 (Point64.mk 0.8 0 0) (Quaternion64.mk 0 0 0 1);
         mkPose64 (Point64.mk 0.9 (-0.1) 0) (Quaternion64.mk 0 0 0 1);
         mkPose64 (Point64.mk 1 0 0) (Quaternion64.mk 0 0 0 1)].
Proof.
  split; [apply example_waypoints64|].
  rewrite example_waypoints64. intros E.
  apply (f_equal (fun r => match r with
                           | Ok [_; _; w; _; _] =>
                               (Point64.y (position64 w) =? 0)%float
                           | _ => true
                           end)) in E.
  vm_compute in E. discriminate.
Qed.

(** C1, as the code has it. For a positive radius, a valid plane with axes
    (a, b) and 1 <= n_points < 2^1024 - 2^970: the centre the call computes
    is the start position with the radius subtracted from coordinate a, and
    waypoint i, for i from 0 to n_points, has coordinate a equal to
    centre_a + radius * cos (2 pi i / n_points) and coordinate b equal to
    centre_b + radius * sin (2 pi i / n_points), which are the expressions
    of lines 36 to 45. Evaluated in binary64 for the start position (1,0,0),
    radius 0.1, four points and plane "xy", they give the centre (0.9,0,0)
    and the waypoints (1,0,0), (0.9,0.1,0), (0.8,1.2246467991473533e-17,0),
    (0.9,-0.1,0), (1,-2.4492935982947065e-17,0): the positions of the claim
    up to 2.5e-17 in y. *)
Theorem C1_coordinates_binary64 (start_pose : Pose) (radius : R)
    (n_points : Z) (plane : string) (ia ib : nat) :
  (0 < radius)%R -> (1 <= n_points < 2 ^ 1024 - 2 ^ 970)%Z ->
  valid_plane plane -> plane_axes plane = Ok (ia, ib) ->
  (exists (centre : R * R * R) (ws : list Pose),
      circle_centre start_pose radius plane = Ok centre /\
      coord (point_of centre) ia = (coord (position start_pose) ia - radius)%R /\
      coord (point_of centre) ib = coord (position start_pose) ib /\
      coord (point_of centre) (third_axis ia ib)
      = coord (position start_pose) (third_axis ia ib) /\
      _build_waypoints start_pose radius n_points plane = Ok ws /\
      forall i : Z, (0 <= i <= n_points)%Z ->
        exists w : Pose,
          ws !! Z.to_nat i = Some w /\
          coord (position w) ia
          = (coord (point_of centre) ia
             + radius * cos (2 * PI * IZR i / IZR n_points))%R /\
          coord (position w) ib
          = (coord (point_of centre) ib
             + radius * sin (2 * PI * IZR i / IZR n_points))%R)
  /\
  (forall q : Quaternion64.t,
      circle_centre64 (example_pose64 q) 0.1 "xy" = Ok (0.9, 0, 0)%float /\
      _build_waypoints_f64 cos_table sin_table (example_pose64 q) 0.1 4 "xy"
      = Ok [mkPose64 (Point64.mk 1 0 0) q;
            mkPose64 (Point64.mk 0.9 0.1 0) q;
            mkPose64 (Point64.mk 0.8 1.2246467991473533e-17 0) q;
            mkPose64 (Point64.mk 0.9 (-0.1) 0) q;
            mkPose64 (Point64.mk 1 (-2.4492935982947065e-17) 0) q]).
Proof.
  intros Hr Hn Hv Hpl. split.
  - exists (centre_at (position start_pose) radius ia),
      (map (waypoint_at start_pose radius n_points ia ib) (range (n_points + 1))).
    pose proof (valid_axes _ _ _ Hv Hpl) as Hab.
    pose proof (waypoint_at_coords start_pose radius n_points ia ib 0 Hab)
      as (Ha & Hb & Hc & _).
    split; [apply (circle_centre_Ok _ _ _ _ _ Hpl)|].
    repeat (split; [assumption|]).
    split; [apply build_waypoints_Ok; [assumption|lia]|].
    intros i Hi. exists (waypoint_at start_pose radius n_points ia ib i).
    split; [apply waypoints_lookup; assumption|].
    pose proof (waypoint_at_coords start_pose radius n_points ia ib i Hab)
      as (_ & _ & _ & Hwa & Hwb & _).
    split; assumption.
  - intros q. split; [apply example_centre64|apply example_waypoints64].
Qed.

Lemma C1_witness :
  exists (centre : R * R * R) (ws : list Pose),
    circle_centre (mkPose (Point.mk 1 0 0) (Quaternion.mk 0 0 0 1)) 0.1 "yz"
    = Ok centre /\
    _build_waypoints (mkPose (Point.mk 1 0 0) (Quaternion.mk 0 0 0 1)) 0.1 4 "yz"
    = Ok ws.
Proof.
  destruct (C1_coordinates_binary64
              (mkPose (Point.mk 1 0 0) (Quaternion.mk 0 0 0 1)) 0.1 4 "yz" 1 2)
    as [(centre & ws & Hc & _ & _ & _ & Hw & _) _].
  - lra.
  - split; [lia|reflexivity].
  - right; left; reflexivity.
  - reflexivity.
  - exists centre, ws. split; assumption.
Defined.







(** ** Further properties, bounded point count *)

(** X1. The outcome of the call for every input with a point count below
    2^1024 - 2^970, the first integer Python cannot convert to a float, in
    the order the code meets the failures: a plane of fewer than two
    characters raises IndexError; otherwise a first character that is no
    axis letter raises KeyError; otherwise a point count of zero raises
    ZeroDivisionError; otherwise a negative point count returns the empty
    list, whatever the second character is; otherwise a second character
    that is no axis letter raises KeyError; otherwise n_points + 1
    waypoints are returned. *)
Theorem X1_outcome_table (start_pose : Pose) (radius : R) (n_points : Z)
    (plane : string) :
  (n_points < 2 ^ 1024 - 2 ^ 970)%Z ->
  match plane with
  | String c0 (String c1 _) =>
      if is_axis c0 then
        if (n_points =? 0)%Z then
          _build_waypoints start_pose radius n_points plane
          = Err ZeroDivisionError
        else if (n_points <? 0)%Z then
          _build_waypoints start_pose radius n_points plane = Ok []
        else if is_axis c1 then
          exists ws : list Pose,
            _build_waypoints start_pose radius n_points plane = Ok ws /\
            Z.of_nat (length ws) = (n_points + 1)%Z
        else _build_waypoints start_pose radius n_points plane = Err KeyError
      else _build_waypoints start_pose radius n_points plane = Err KeyError
  | _ => _build_waypoints start_pose radius n_points plane = Err IndexError
  end.
Proof.
  intros _.
  destruct plane as [|c0 [|c1 rest]]; [reflexivity..|].
  destruct (is_axis c0) eqn:H0; [|apply build_waypoints_bad_first, H0].
  pose proof (is_axis_lookup c0) as Hl0. rewrite H0 in Hl0.
  destruct Hl0 as (ia & Ha).
  destruct (Z.eqb_spec n_points 0) as [->|Hn0].
  { apply (build_waypoints_zero _ _ _ (String c0 "") (String c1 "") ia);
      [reflexivity..|exact Ha]. }
  destruct (Z.ltb_spec n_points 0) as [Hneg|Hpos].
  { apply (build_waypoints_negative _ _ _ _ (String c0 "") (String c1 "") ia);
      [lia|reflexivity..|exact Ha]. }
  pose proof (plane_axes_letters c0 c1 rest) as Hpl. rewrite H0 in Hpl.
  cbn [andb] in Hpl.
  destruct (is_axis c1).
  - destruct Hpl as (ja & jb & Hpl).
    exists (map (waypoint_at start_pose radius n_points ja jb)
                (range (n_points + 1))).
    split; [apply build_waypoints_Ok; assumption|].
    apply waypoints_length. lia.
  - apply build_waypoints_Err; [lia|exact Hpl].
Qed.

Lemma X1_witness :
  _build_waypoints (mkPose (Point.mk 1 2 3) (Quaternion.mk 0 0 0 1))
                   0.1 (-5) "zq" = Ok [].
Proof.
  apply (X1_outcome_table (mkPose (Point.mk 1 2 3) (Quaternion.mk 0 0 0 1))
                          0.1 (-5) "zq").
  reflexivity.
Defined.

Lemma waypoint_at_any_order (p : Pose) (radius : R) (n_points : Z)
    (ia ib : nat) (i : Z) :
  (ia < 3)%nat -> (ib < 3)%nat -> ia <> ib ->
  let w := waypoint_at p radius n_points ia ib i in
  coord (position w) ia
  = (coord (position p) ia - radius
     + radius * cos (theta_of n_points i))%R /\
  coord (position w) ib
  = (coord (position p) ib + radius * sin (theta_of n_points i))%R /\
  (forall k : nat, (k < 3)%nat -> k <> ia -> k <> ib ->
                   coord (position w) k = coord (position p) k) /\
  orientation w = orientation p.
Proof.
  intros Ha Hb Hab. destruct p as [[x y z] q].
  axes_enum ia ib; waypoint_compute;
    (split; [lra|]); (split; [lra|]); (split; [|reflexivity]);
    intros [|[|[|k]]] Hk Hna Hnb; try lia; try congruence;
    cbn [coord position Point.x Point.y Point.z]; lra.
Qed.

(** X4. Neither the sign of the radius nor the order of the two letters is
    checked, and the order matters: when the first two characters of the
    plane are two different axis letters (a, b), in any order, and
    1 <= n_points < 2^1024 - 2^970, then for every radius, also zero or
    negative, the call returns n_points + 1 waypoints, and waypoint i has
    coordinate a equal to (start_a - radius) + radius * cos (2 pi i /
    n_points), coordinate b equal to start_b + radius * sin (2 pi i /
    n_points), the start pose's coordinate on the remaining axis and the
    start pose's orientation. So "yx" shifts the centre along y where "xy"
    shifts it along x. *)
Theorem X4_any_radius_any_letter_order (start_pose : Pose) (radius : R)
    (n_points : Z) (plane : string) (ia ib : nat) :
  plane_axes plane = Ok (ia, ib) -> ia <> ib ->
  (1 <= n_points < 2 ^ 1024 - 2 ^ 970)%Z ->
  exists ws : list Pose,
    _build_waypoints start_pose radius n_points plane = Ok ws /\
    Z.of_nat (length ws) = (n_points + 1)%Z /\
    forall i : Z, (0 <= i <= n_points)%Z ->
      exists w : Pose,
        ws !! Z.to_nat i = Some w /\
        coord (position w) ia
        = (coord (position start_pose) ia - radius
           + radius * cos (2 * PI * IZR i / IZR n_points))%R /\
        coord (position w) ib
        = (coord (position start_pose) ib
           + radius * sin (2 * PI * IZR i / IZR n_points))%R /\
        (forall k : nat, (k < 3)%nat -> k <> ia -> k <> ib ->
           coord (position w) k = coord (position start_pose) k) /\
        orientation w = orientation start_pose.
Proof.
  intros Hpl Hab Hn. destruct (plane_axes_range _ _ _ Hpl) as [Ha Hb].
  exists (map (waypoint_at start_pose radius n_points ia ib)
              (range (n_points + 1))).
  split; [apply build_waypoints_Ok; [assumption|lia]|].
  split; [apply waypoints_length; lia|].
  intros i Hi. exists (waypoint_at start_pose radius n_points ia ib i).
  split; [apply waypoints_lookup; assumption|].
  apply waypoint_at_any_order; assumption.
Qed.

Lemma X4_witness :
  exists ws : list Pose,
    _build_waypoints (mkPose (Point.mk 1 2 3) (Quaternion.mk 0 0 0 1))
                     (-0.5) 6 "zx" = Ok ws /\
    Z.of_nat (length ws) = 7%Z.
Proof.
  destruct (X4_any_radius_any_letter_order
              (mkPose (Point.mk 1 2 3) (Quaternion.mk 0 0 0 1))
              (-0.5) 6 "zx" 2 0)
    as (ws & Hws & Hlen & _).
  - reflexivity.
  - lia.
  - split; [lia|reflexivity].
  - exists ws. split; assumption.
Defined.

(** X9. What the planner hands to compute_cartesian_path: when the first two
    calls return normally, the first two characters of the plane are two
    axis letters and 1 <= n_points < 2^1024 - 2^970, the third call of the
    run is compute_cartesian_path on n_points + 1 waypoints, all with the
    orientation of the pose get_current_pose reported, with the eef_step and
    jump_threshold given and avoid_collisions=True, whether that call then
    returns or raises. *)
Theorem X9_path_request {St RobotTrajectory : Type}
    (move_group : MoveGroupCommander.t St RobotTrajectory)
    (radius : R) (n_points : Z) (plane : string) (ia ib : nat)
    (eef_step jump_threshold velocity_scale : R) (execute : bool)
    (completeness_threshold : R) (s0 s1 s2 : St) (current : PoseStamped) :
  MoveGroupCommander.set_max_velocity_scaling_factor move_group velocity_scale s0
  = (Ok tt, s1) ->
  MoveGroupCommander.get_current_pose move_group s1 = (Ok current, s2) ->
  plane_axes plane = Ok (ia, ib) ->
  (1 <= n_points < 2 ^ 1024 - 2 ^ 970)%Z ->
  exists waypoints : list Pose,
    snd (snd (plan_cartesian_circle move_group radius n_points plane eef_step
                jump_threshold velocity_scale execute completeness_threshold
                (s0, []))) !! 2%nat
    = Some (ComputeCartesianPath waypoints eef_step jump_threshold true) /\
    _build_waypoints (pose current) radius n_points plane = Ok waypoints /\
    Z.of_nat (length waypoints) = (n_points + 1)%Z /\
    Forall (fun w => orientation w = orientation (pose current)) waypoints.
Proof.
  intros Hset Hget Hpl Hn.
  pose proof (build_waypoints_Ok (pose current) radius n_points plane ia ib
                Hpl ltac:(lia)) as Hws.
  exists (map (waypoint_at (pose current) radius n_points ia ib)
              (range (n_points + 1))).
  rewrite plan_cartesian_circle_run, Hset, Hget, Hws. cbv zeta.
  split.
  - destruct (MoveGroupCommander.compute_cartesian_path _ _ _ _ _ s2)
      as [[[traj fraction]|e] s3]; [|reflexivity].
    destruct (execute && float_ge fraction completeness_threshold);
      [|reflexivity].
    destruct (MoveGroupCommander.execute _ _ _ s3) as [[u'|e] s4]; reflexivity.
  - split; [reflexivity|].
    split; [apply waypoints_length; lia|].
    apply Forall_forall. intros w Hw.
    apply list_elem_of_In, in_map_iff in Hw. destruct Hw as (i & <- & _).
    unfold waypoint_at.
    destruct (centre_at (position (pose current)) radius ia) as [[cx cy] cz].
    reflexivity.
Qed.

Lemma X9_witness :
  exists waypoints : list Pose,
    snd (snd (plan_cartesian_circle
                (stub (mkPoseStamped (mkHeader 0 (0, 0)%Z "base_link")
                         (mkPose (Point.mk 1 0 0) (Quaternion.mk 0 0 0 1)))
                      0.5)
                0.1 120 "xy" 0.005 0 0.2 true 0.95 (0%nat, []))) !! 2%nat
    = Some (ComputeCartesianPath waypoints 0.005 0 true) /\
    Z.of_nat (length waypoints) = 121%Z.
Proof.
  destruct (X9_path_request
              (stub (mkPoseStamped (mkHeader 0 (0, 0)%Z "base_link")
                       (mkPose (Point.mk 1 0 0) (Quaternion.mk 0 0 0 1)))
                    0.5)
              0.1 120 "xy" 0 1 0.005 0 0.2 true 0.95 0%nat 0%nat 0%nat
              (mkPoseStamped (mkHeader 0 (0, 0)%Z "base_link")
                 (mkPose (Point.mk 1 0 0) (Quaternion.mk 0 0 0 1))))
    as (ws & Hcall & _ & Hlen & _).
  - reflexivity.
  - reflexivity.
  - reflexivity.
  - split; [lia|reflexivity].
  - exists ws. split; [exact Hcall|exact Hlen].
Defined.
